(** * Recall AI: the upload-triggered ingestion pipeline and the deck export

    A shallow embedding of
    - the Cloud Function [onFileUpload] of the functions package, which
      validates an uploaded storage object, calls the remote AI service and
      writes a deck and its flashcards to Firestore, and
    - the client-side [handleExport] of the deck page
      (recall-ai-app/src/app/deck/[deckId]/page.tsx), with the handlers of
      the card selection,
    - [exportToAnki] (recall-ai-app/src/lib/ankiExport.ts), and
    - the handlers of the two upload components, FileUpload and
      AudioUpload, whose uploads trigger the Cloud Function.

    JavaScript strings are modelled by [string], a sequence of code units
    below 256: texts of code points up to 255 are modelled exactly, others
    have no counterpart.  JSON numbers are modelled by [Z]. *)

From Stdlib Require Import ZArith Ascii.
From stdpp Require Import gmap strings pretty list.

Local Open Scope Z_scope.

(** ** JavaScript primitives used by the sources *)
Module Js.

(** Values produced by [JSON.parse], plus [undefined]. *)
#[local] Set Warnings "-register-all".
Inductive JsVal :=
| JUndefined
| JNull
| JBool (b : bool)
| JNum (n : Z)
| JStr (s : string)
| JArr (items : list JsVal)
| JObj (fields : list (string * JsVal)).

(** ToBoolean. *)
Definition truthy (v : JsVal) : bool :=
  match v with
  | JUndefined | JNull => false
  | JBool b => b
  | JNum n => negb (n =? 0)
  | JStr s => negb (String.eqb s "")
  | JArr _ | JObj _ => true
  end.

(** [a || b] *)
Definition or_else (a b : JsVal) : JsVal := if truthy a then a else b.

Fixpoint assoc (k : string) (fields : list (string * JsVal)) : JsVal :=
  match fields with
  | [] => JUndefined
  | (k', v) :: rest => if String.eqb k k' then v else assoc k rest
  end.

(** Property read [v.k] for the data keys the sources use (none of them
    is a built-in property of a primitive or of an array).  Reading a
    property of [undefined] or [null] throws a TypeError: [None]. *)
Definition get (v : JsVal) (k : string) : option JsVal :=
  match v with
  | JUndefined | JNull => None
  | JObj fields => Some (assoc k fields)
  | _ => Some JUndefined
  end.

(** [v.length] of a truthy value: the length of an array or of a string,
    the property of that name of an object. *)
Definition get_length (v : JsVal) : JsVal :=
  match v with
  | JArr items => JNum (Z.of_nat (length items))
  | JStr s => JNum (Z.of_nat (String.length s))
  | JObj fields => assoc "length" fields
  | _ => JUndefined
  end.

(** [Array.isArray] *)
Definition isArray (v : JsVal) : bool :=
  match v with JArr _ => true | _ => false end.

(** Truthiness of an optional string ([undefined], [null] and the empty
    string are falsy). *)
Definition truthy_str (s : option string) : bool :=
  match s with
  | Some s => negb (String.eqb s "")
  | None => false
  end.

(** [s.split(sep)] for a one-character separator. *)
Fixpoint split (sep : ascii) (s : string) : list string :=
  match s with
  | "" => [""]
  | String c s' =>
      if Ascii.eqb c sep then "" :: split sep s'
      else match split sep s' with
           | h :: t => String c h :: t
           | [] => [String c ""]
           end
  end.

(** [parts.join(sep)] *)
Fixpoint join (sep : string) (parts : list string) : string :=
  match parts with
  | [] => ""
  | [p] => p
  | p :: rest => p +:+ sep +:+ join sep rest
  end.

(** [s.lastIndexOf(c)], -1 when [c] does not occur. *)
Fixpoint lastIndexOf_from (c : ascii) (s : string) (i : Z) (found : Z) : Z :=
  match s with
  | "" => found
  | String c' s' =>
      lastIndexOf_from c s' (i + 1) (if Ascii.eqb c' c then i else found)
  end.
Definition lastIndexOf (c : ascii) (s : string) : Z :=
  lastIndexOf_from c s 0 (-1).

Fixpoint drop (n : nat) (s : string) : string :=
  match n, s with
  | O, _ => s
  | S n', String _ s' => drop n' s'
  | S _, "" => ""
  end.

Fixpoint take (n : nat) (s : string) : string :=
  match n, s with
  | S n', String c s' => String c (take n' s')
  | _, _ => ""
  end.

(** [s.substring(start)]: a negative start counts as 0, a start beyond
    the end yields the empty string. *)
Definition substring_from (start : Z) (s : string) : string :=
  drop (Z.to_nat start) s.

(** [s.substring(0, stop)] *)
Definition substring_to (stop : Z) (s : string) : string :=
  take (Z.to_nat stop) s.

(** The lower-case form of a code unit below 256: the letters A to Z and
    the capital letters of codes 192 to 222, the multiplication sign (215)
    apart, move up by 32. *)
Definition lower_char (c : ascii) : ascii :=
  let n := nat_of_ascii c in
  if ((65 <=? n) && (n <=? 90)
      || (192 <=? n) && (n <=? 222) && negb (n =? 215))%nat
  then ascii_of_nat (n + 32) else c.

(** [s.toLowerCase()] *)
Fixpoint toLowerCase (s : string) : string :=
  match s with
  | "" => ""
  | String c s' => String (lower_char c) (toLowerCase s')
  end.

(** [s.startsWith(p)] *)
Definition startsWith (s p : string) : bool := String.prefix p s.

(** [l.includes(x)] *)
Definition includes (l : list string) (x : string) : bool :=
  existsb (String.eqb x) l.

(** White space and line terminators among the code units below 256:
    tab, line feed, vertical tab, form feed, carriage return, space and
    the no-break space (code 160).  The white space of higher code
    points has no counterpart in the model. *)
Definition is_white_space (c : ascii) : bool :=
  Ascii.is_space c || Ascii.eqb c "160"%char.

Fixpoint trimStart (s : string) : string :=
  match s with
  | String c s' => if is_white_space c then trimStart s' else s
  | "" => ""
  end.

(** [s.trim()] *)
Definition trim (s : string) : string :=
  String.rev (trimStart (String.rev (trimStart s))).

(** The double-quote character (code 34). *)
Definition dquote : ascii := "034"%char.

(** [c] occurs in [s]. *)
Fixpoint occurs (c : ascii) (s : string) : bool :=
  match s with
  | "" => false
  | String c' s' => Ascii.eqb c' c || occurs c s'
  end.

(** [s.indexOf('//') >= 0] *)
Fixpoint has_double_slash (s : string) : bool :=
  match s with
  | String "/" (String "/" _) => true
  | String _ s' => has_double_slash s'
  | "" => false
  end.

(** [s.split('/').filter(segment => segment.length > 0)] *)
Definition path_segments (s : string) : list string :=
  List.filter (fun segment => negb (String.eqb segment "")) (split "/" s).

(** [s.replace(/q/g, 'qq')] where q is the double-quote character:
    every double quote of [s] is doubled. *)
Fixpoint replace_quotes (s : string) : string :=
  match s with
  | "" => ""
  | String c s' =>
      if Ascii.eqb c dquote
      then String dquote (String dquote (replace_quotes s'))
      else String c (replace_quotes s')
  end.

Definition digit_value (radix : Z) (c : ascii) : option Z :=
  let n := Z.of_nat (nat_of_ascii c) in
  let d := if (48 <=? n) && (n <=? 57) then Some (n - 48)
           else if (97 <=? n) && (n <=? 122) then Some (n - 87)
           else if (65 <=? n) && (n <=? 90) then Some (n - 55)
           else None in
  match d with
  | Some d => if d <? radix then Some d else None
  | None => None
  end.

(** Longest prefix of digits, accumulated left to right;
    [None] when there is no digit at all. *)
Fixpoint parse_digits (radix : Z) (s : string) (acc : option Z) : option Z :=
  match s with
  | "" => acc
  | String c s' =>
      match digit_value radix c with
      | Some d => parse_digits radix s' (Some (from_option id 0 acc * radix + d))
      | None => acc
      end
  end.

Definition parse_unsigned (s : string) : option Z :=
  match s with
  | String "0" (String "x" s') | String "0" (String "X" s') =>
      parse_digits 16 s' None
  | _ => parse_digits 10 s None
  end.

(** [parseInt(s)]: leading white space skipped, optional sign, optional
    hexadecimal prefix, then the longest run of digits; [None] is NaN.
    The result is exact where JavaScript rounds to a double, which does
    not change a comparison with an integer below 2^53. *)
Definition parseInt (s : string) : option Z :=
  match trimStart s with
  | String "-" s' => Z.opp <$> parse_unsigned s'
  | String "+" s' => parse_unsigned s'
  | s' => parse_unsigned s'
  end.

(** [a > b] where [a] may be NaN. *)
Definition gt (a : option Z) (b : Z) : bool :=
  match a with
  | Some a => b <? a
  | None => false
  end.

(** Template-literal rendering of a number. *)
Definition show (n : Z) : string := pretty n.

End Js.

Import Js.

(** ** The Cloud Function [onFileUpload]

    Line numbers refer to the source file of the function. *)
Module Functions.

(** *** Data *)

(** A thrown value: an [Error] with its message, or anything else. *)
Inductive Thrown :=
| ErrorObj (message : string)
| NonError.

(** Settlement of an awaited promise of an external collaborator. *)
Inductive Result (A : Type) :=
| Resolved (a : A)
| Rejected (e : Thrown).
Arguments Resolved {A} a.
Arguments Rejected {A} e.

(** The storage object of the finalize event. *)
Record ObjectMetadata := {
  object_name : option string;
  object_contentType : option string;
  object_size : option string;
  object_bucket : string
}.

Definition Buffer := string.

Inductive Level := Info | Warn | Error.

(** Body and configuration of an [axios.post]. *)
Inductive AiBody :=
| TextBody (text : string) (num_cards : Z)
| AudioForm (audio : option Buffer) (filename contentType : string)
            (num_cards : string).

Record AxiosConfig := {
  timeout : option Z;
  maxContentLength : option Z
}.

(** [admin.firestore.FieldValue.serverTimestamp()] *)
Inductive FieldValue := ServerTimestamp.

Record Transcription := {
  text : JsVal;
  language : JsVal;
  duration : JsVal;
  segments_count : JsVal
}.

(** A document of the [decks] collection: the fields of [deckData] and of
    the failed-deck entry; a field that is not set is [None]. *)
Record DeckDoc := {
  title : string;
  userId : string;
  createdAt : FieldValue;
  updatedAt : option FieldValue;
  status : string;
  total_cards : nat;
  source_type : option string;
  model_used : option JsVal;
  error_message : option string;
  transcription : option Transcription;
  audio_info : option JsVal
}.

(** A document of a deck's [cards] sub-collection: [cardData]. *)
Record CardDoc := {
  id : JsVal;
  type : JsVal;
  question : JsVal;
  answer : JsVal;
  source_text : JsVal;
  difficulty : JsVal;
  created_at : FieldValue
}.

(** Document references: [decks/{deckId}] and
    [decks/{deckId}/cards/{cardId}], where [cardId] is the path of the
    document relative to the [cards] collection: one segment for a card,
    an odd number of segments joined by slashes in general. *)
Inductive DocRef :=
| DeckRef (deckId : string)
| CardRef (deckId cardId : string).

Inductive DocData :=
| DeckData (d : DeckDoc)
| CardData (c : CardDoc).

#[global] Instance DocRef_eq_dec : EqDecision DocRef.
Proof. solve_decision. Defined.

#[global] Instance DocRef_countable : Countable DocRef :=
  inj_countable'
    (fun r => match r with
              | DeckRef d => inl d
              | CardRef d c => inr (d, c)
              end)
    (fun x => match x with
              | inl d => DeckRef d
              | inr (d, c) => CardRef d c
              end)
    (fun r => match r with DeckRef _ | CardRef _ _ => eq_refl end).

(** The database: the document stored under each reference. *)
Abbreviation Firestore := (gmap DocRef DocData).

Inductive Effect :=
| Log (level : Level) (message : string)
| Download (bucket path : string)
| HttpPost (url : string) (body : AiBody) (config : AxiosConfig)
| DocSet (ref : DocRef) (data : DocData)
| BatchCommit (writes : list (DocRef * DocData)).

(** The external collaborators: object storage, the PDF parser, the AI
    service, the clock and the database.  [Date_now k] is the value of
    the k-th reading of the clock; [write_fault k] tells whether the k-th
    write operation is rejected by the database. *)
Record Env := {
  download : string -> string -> Result (option Buffer);
  pdfParse : Buffer -> Result string;
  toString_utf8 : Buffer -> string;
  axios_post : string -> AiBody -> AxiosConfig -> Result JsVal;
  Date_now : nat -> Z;
  write_fault : nat -> option Thrown
}.

(** The state one invocation acts on: the database, the effects emitted so
    far (oldest first) and the number of clock readings and of write
    operations made. *)
Record World := {
  db : Firestore;
  effects : list Effect;
  clock_reads : nat;
  db_writes : nat
}.

(** *** The monad of a handler body: state, [return], [throw] *)

Inductive Outcome (A : Type) :=
| Value (a : A)
| Returned
| Threw (e : Thrown).
Arguments Value {A} a.
Arguments Returned {A}.
Arguments Threw {A} e.

Definition M (A : Type) : Type := World -> Outcome A * World.

#[global] Instance M_ret : MRet M := fun A a w => (Value a, w).
#[global] Instance M_bind : MBind M := fun A B f m w =>
  match m w with
  | (Value a, w') => f a w'
  | (Returned, w') => (Returned, w')
  | (Threw e, w') => (Threw e, w')
  end.

(** [return;] *)
Definition early_return {A} : M A := fun w => (Returned, w).

(** [throw e] *)
Definition throw {A} (e : Thrown) : M A := fun w => (Threw e, w).

(** [try { body } catch (e) { handler e }] *)
Definition try_catch {A} (body : M A) (handler : Thrown -> M A) : M A :=
  fun w =>
    match body w with
    | (Threw e, w') => handler e w'
    | r => r
    end.

(** [if (c) { body }] *)
Definition when (c : bool) (body : M unit) : M unit :=
  if c then body else mret tt.

Definition emit (e : Effect) : M unit := fun w =>
  (Value tt, {| db := db w; effects := effects w ++ [e];
                clock_reads := clock_reads w; db_writes := db_writes w |}).

(** [functions.logger.info / warn / error] *)
Definition log (level : Level) (message : string) : M unit :=
  emit (Log level message).

(** [await p] *)
Definition await {A} (r : Result A) : M A :=
  match r with
  | Resolved a => mret a
  | Rejected e => throw e
  end.

(** [v.k], a TypeError when [v] is [undefined] or [null]. *)
Definition prop (v : JsVal) (k : string) : M JsVal :=
  match get v k with
  | Some x => mret x
  | None => throw (ErrorObj ("Cannot read properties of " +:+
              (match v with JNull => "null" | _ => "undefined" end) +:+
              " (reading '" +:+ k +:+ "')"))
  end.

(** *** [onFileUpload] *)

Definition AI_SERVICE_URL : string :=
  "https://recall-ai-service-15375066513.us-east1.run.app".

Definition maxDocumentSize : Z := 10 * 1024 * 1024.
Definition allowedDocumentTypes : list string :=
  ["application/pdf"; "text/plain"].
Definition allowedDocumentExtensions : list string := [".pdf"; ".txt"].

Definition maxAudioSize : Z := 50 * 1024 * 1024.
Definition allowedAudioTypes : list string :=
  ["audio/mp3"; "audio/wav"; "audio/m4a"; "audio/flac"; "audio/aac";
   "audio/ogg"; "audio/mpeg"].
Definition allowedAudioExtensions : list string :=
  [".mp3"; ".wav"; ".m4a"; ".flac"; ".aac"; ".ogg"].

Definition minTextLength : Z := 10.
Definition maxTextLength : Z := 100000.

(** [filePath.toLowerCase().substring(filePath.lastIndexOf('.'))] *)
Definition fileExtension (filePath : string) : string :=
  substring_from (lastIndexOf "." filePath) (toLowerCase filePath).

(** [fileSize && parseInt(fileSize) > max] *)
Definition exceeds (fileSize : option string) (max : Z) : bool :=
  truthy_str fileSize && gt (parseInt (default "" fileSize)) max.

(** [allowed.some(type => contentType.startsWith(type))] *)
Definition type_allowed (allowed : list string) (contentType : string) : bool :=
  existsb (startsWith contentType) allowed.

(** Line 14, [admin.storage().bucket(object.bucket)]: the call throws
    unless the name is a non-empty string. *)
Definition storage_bucket (name : string) : M string :=
  if String.eqb name "" then
    throw (ErrorObj "Bucket name not specified or invalid. Specify a valid bucket name via the storageBucket option when initializing the app, or specify the bucket name explicitly when calling the getBucket() method.")
  else mret name.

(** What the validation (lines 15-91) leaves for the rest of the handler. *)
Record Upload := {
  bucket : string;
  filePath : string;
  contentType : string;
  pathParts : option (list string);
  upload_userId : string;
  fileType : string
}.

(** Lines 15-91: path, content type, size and extension checks.  Each
    failed check logs an error and returns from the handler. *)
Definition validate (object : ObjectMetadata) : M Upload :=
  let filePath := object_name object in
  let contentType := object_contentType object in
  let fileSize := object_size object in
  let pathParts := split "/" <$> filePath in
  let '(userId, fileType) :=
    match pathParts with
    | Some parts =>
        if (4 <=? length parts)%nat
           && bool_decide (parts !! 0%nat = Some "uploads")
        then (parts !! 2%nat, parts !! 1%nat)
        else (None, None)
    | None => (None, None)
    end in
  when (negb (truthy_str userId) || negb (truthy_str fileType))
    (log Error "Could not extract user ID or file type from file path. File path should be: uploads/{type}/{userId}/{filename}";;
     early_return);;
  when (negb (truthy_str filePath) || negb (truthy_str contentType))
    (log Error "File path or content type not available.";;
     early_return);;
  let userId := default "" userId in
  let fileType := default "" fileType in
  let filePath := default "" filePath in
  let contentType := default "" contentType in
  log Info ("Processing " +:+ fileType +:+ " file for user " +:+ userId
            +:+ ": " +:+ filePath);;
  (if String.eqb fileType "documents" then
     when (exceeds fileSize maxDocumentSize)
       (log Error ("Document size " +:+ default "" fileSize
                   +:+ " exceeds maximum allowed size of "
                   +:+ show maxDocumentSize +:+ " bytes.");;
        early_return);;
     when (negb (type_allowed allowedDocumentTypes contentType))
       (log Error ("Unsupported document type: " +:+ contentType
                   +:+ ". Only PDF and TXT files are allowed.");;
        early_return);;
     when (negb (includes allowedDocumentExtensions (fileExtension filePath)))
       (log Error ("Invalid document extension: " +:+ fileExtension filePath
                   +:+ ". Only .pdf and .txt files are allowed.");;
        early_return)
   else if String.eqb fileType "audio" then
     when (exceeds fileSize maxAudioSize)
       (log Error ("Audio size " +:+ default "" fileSize
                   +:+ " exceeds maximum allowed size of "
                   +:+ show maxAudioSize +:+ " bytes.");;
        early_return);;
     when (negb (type_allowed allowedAudioTypes contentType))
       (log Error ("Unsupported audio type: " +:+ contentType
                   +:+ ". Only MP3, WAV, M4A, FLAC, AAC, OGG files are allowed.");;
        early_return);;
     when (negb (includes allowedAudioExtensions (fileExtension filePath)))
       (log Error ("Invalid audio extension: " +:+ fileExtension filePath
                   +:+ ". Only audio files are allowed.");;
        early_return)
   else
     log Error ("Unknown file type: " +:+ fileType
                +:+ ". Only 'documents' and 'audio' are supported.");;
     early_return);;
  mret {| bucket := object_bucket object; filePath := filePath;
          contentType := contentType; pathParts := pathParts;
          upload_userId := userId; fileType := fileType |}.

(** The writes of a batch, applied in the order they were added. *)
Definition apply_batch (writes : list (DocRef * DocData)) (fs : Firestore)
    : Firestore :=
  foldl (fun m w => <[w.1 := w.2]> m) fs writes.

(** The object literal [cardData] of lines 240-248. *)
Definition make_cardData (card_id card_type card_question card_answer
    card_source_text card_difficulty : JsVal) (index : nat) : CardDoc :=
  {| id := or_else card_id (JStr ("card_" +:+ show (Z.of_nat index + 1)));
     type := or_else card_type (JStr "qa");
     question := or_else card_question (JStr "No question generated");
     answer := or_else card_answer (JStr "No answer provided");
     source_text := or_else card_source_text (JStr "Source text not available");
     difficulty := or_else card_difficulty (JStr "medium");
     created_at := ServerTimestamp |}.

Section WithEnv.
Variable env : Env.

(** [Date.now()] *)
Definition now : M Z := fun w =>
  (Value (Date_now env (clock_reads w)),
   {| db := db w; effects := effects w;
      clock_reads := S (clock_reads w); db_writes := db_writes w |}).

(** [await bucket.file(filePath).download()], first element. *)
Definition file_download (bucket filePath : string) : M (option Buffer) :=
  emit (Download bucket filePath);;
  await (download env bucket filePath).

(** [await axios.post(url, body, config)], the response's [data]. *)
Definition post (url : string) (body : AiBody) (config : AxiosConfig)
  : M JsVal :=
  emit (HttpPost url body config);;
  await (axios_post env url body config).

(** One write operation: rejected as a whole, or applied as a whole. *)
Definition write (e : Effect) (apply : Firestore -> Firestore) : M unit :=
  fun w =>
    match write_fault env (db_writes w) with
    | Some err =>
        (Threw err, {| db := db w; effects := effects w;
                       clock_reads := clock_reads w;
                       db_writes := S (db_writes w) |})
    | None =>
        (Value tt, {| db := apply (db w); effects := effects w ++ [e];
                      clock_reads := clock_reads w;
                      db_writes := S (db_writes w) |})
    end.

(** [await ref.set(data)] *)
Definition doc_set (ref : DocRef) (data : DocData) : M unit :=
  write (DocSet ref data) (fun fs => <[ref := data]> fs).

(** [await batch.commit()] *)
Definition batch_commit (writes : list (DocRef * DocData)) : M unit :=
  write (BatchCommit writes) (apply_batch writes).

(** Lines 116-121: the text of a downloaded document. *)
Definition extract_text (u : Upload) (buffer : Buffer) : Result string :=
  if startsWith (contentType u) "application/pdf"
  then pdfParse env buffer
  else Resolved (toString_utf8 env buffer).

(** Lines 96-178: the content is extracted and sent to the AI service;
    the result is [aiServiceResponse.data], if a request was made. *)
Definition request_flashcards (u : Upload) : M (option JsVal) :=
  if String.eqb (fileType u) "documents" then
    fileBuffer ← try_catch (file_download (bucket u) (filePath u))
      (fun _ => log Error "Failed to download document:";; early_return);
    when (match fileBuffer with
          | Some b => (String.length b =? 0)%nat
          | None => true
          end)
      (log Error "Document is empty or corrupted.";; early_return);;
    let buffer := default "" fileBuffer in
    textContent ← try_catch (await (extract_text u buffer))
      (fun _ => log Error "Failed to extract text from document:";;
                early_return);
    when (String.eqb (trim textContent) "")
      (log Error "Extracted text content is empty.";; early_return);;
    when (Z.of_nat (String.length textContent) <? minTextLength)
      (log Error ("Text content too short: "
                  +:+ show (Z.of_nat (String.length textContent))
                  +:+ " characters. Minimum required: "
                  +:+ show minTextLength);;
       early_return);;
    textContent ←
      (if maxTextLength <? Z.of_nat (String.length textContent) then
         log Warn ("Text content very long: "
                   +:+ show (Z.of_nat (String.length textContent))
                   +:+ " characters. Truncating to "
                   +:+ show maxTextLength +:+ ".");;
         mret (substring_to maxTextLength textContent)
       else mret textContent);
    log Info "Sending document text to AI service for processing...";;
    data ← post (AI_SERVICE_URL +:+ "/process") (TextBody textContent 15)
             {| timeout := None; maxContentLength := None |};
    mret (Some data)
  else if String.eqb (fileType u) "audio" then
    log Info "Sending audio file to AI service for processing...";;
    fileBuffer ← file_download (bucket u) (filePath u);
    let originalFilename :=
      match pathParts u with
      | Some parts => default "" (parts !! 3%nat)
      | None => "audio_file"
      end in
    data ← post (AI_SERVICE_URL +:+ "/process-audio")
             (AudioForm fileBuffer originalFilename (contentType u) "12")
             {| timeout := Some 300000;
                maxContentLength := Some (50 * 1024 * 1024) |};
    mret (Some data)
  else mret None.

(** [filePath.split('/').pop()] *)
Definition basename (filePath : string) : option string :=
  last (split "/" filePath).

(** [filePath.split('/').pop()?.split('.')[0] || `deck-${Date.now()}`] *)
Definition deck_filename (filePath : string) : M string :=
  let stem := (fun b => default "" (head (split "." b))) <$> basename filePath in
  if truthy_str stem then mret (default "" stem)
  else t ← now; mret ("deck-" +:+ show t).

(** The words with which the database client names the argument of
    [doc]: Value for argument documentPath, the name in double quotes. *)
Definition documentPath_argument : string :=
  "Value for argument " +:+ String dquote "documentPath" +:+ String dquote "".

(** [collection.doc(documentPath)] on the [cards] collection of a deck,
    whose own path has three segments.  The argument must be a non-empty
    string without two slashes in a row, and its non-empty segments,
    appended to the path of the collection, must make a document path, one
    with an even number of segments; otherwise [doc] throws.  The result
    is the path of the document relative to the collection. *)
Definition doc (documentPath : JsVal) : M string :=
  match documentPath with
  | JStr path =>
      if String.eqb path "" then
        throw (ErrorObj (documentPath_argument +:+
          " is not a valid resource path. Path must be a non-empty string."))
      else if has_double_slash path then
        throw (ErrorObj (documentPath_argument +:+
          " is not a valid resource path. Paths must not contain //."))
      else if Nat.even (3 + length (path_segments path)) then
        mret (join "/" (path_segments path))
      else
        throw (ErrorObj (documentPath_argument +:+
          " must point to a document, but was " +:+
          String dquote path +:+ String dquote
            ". Your path does not contain an even number of components."))
  | _ =>
      throw (ErrorObj (documentPath_argument +:+
        " is not a valid resource path. Path must be a non-empty string."))
  end.

(** The body of the [forEach] of lines 238-252 at one card:
    [batch.set(db.collection('decks').doc(deckId).collection('cards')
    .doc(cardData.id), cardData)].  The deck identifier is not empty and
    holds no slash, so only the last [doc] can throw.  What the database
    itself requires of the identifier and of the data is decided when the
    batch is committed, and counts as a rejection of that write. *)
Definition add_card (deckId : string) (card : JsVal) (index : nat)
    (batch : list (DocRef * DocData)) : M (list (DocRef * DocData)) :=
  card_id ← prop card "id";
  card_type ← prop card "type";
  card_question ← prop card "question";
  card_answer ← prop card "answer";
  card_source_text ← prop card "source_text";
  card_difficulty ← prop card "difficulty";
  let cardData := make_cardData card_id card_type card_question card_answer
                    card_source_text card_difficulty index in
  cardPath ← doc (id cardData);
  mret (batch ++ [(CardRef deckId cardPath, CardData cardData)]).

(** [flashcards.forEach((card, index) => ...)] from position [index]. *)
Fixpoint add_cards (deckId : string) (flashcards : list JsVal) (index : nat)
    (batch : list (DocRef * DocData)) : M (list (DocRef * DocData)) :=
  match flashcards with
  | [] => mret batch
  | card :: rest =>
      batch' ← add_card deckId card index batch;
      add_cards deckId rest (S index) batch'
  end.

(** Lines 180-256: the response is checked, then the deck document is
    set and the cards are written in one batch.  The operands of the
    short-circuit tests ([aiData.flashcards], [aiData.transcription]) are
    read before the test: a read of a body whose [success] was read has no
    effect and cannot throw. *)
Definition persist (u : Upload) (aiServiceResponse : option JsVal) : M unit :=
  log Info "Received response from AI service";;
  match aiServiceResponse with
  | None => log Error "No response received from AI service";; early_return
  | Some aiData =>
      success ← prop aiData "success";
      flashcards_field ← prop aiData "flashcards";
      when (negb (truthy success) || negb (truthy flashcards_field)
            || negb (isArray flashcards_field))
        (log Error "Invalid response from AI service:";; early_return);;
      match flashcards_field with
      | JArr flashcards =>
          when (length flashcards =? 0)%nat
            (log Warn "AI service returned no flashcards";; early_return);;
          filename ← deck_filename (filePath u);
          t ← now;
          let deckId := upload_userId u +:+ "_" +:+ filename +:+ "_" +:+ show t in
          model ← prop aiData "model";
          let deckData :=
            {| title := (let b := basename (filePath u) in
                         if truthy_str b then default "" b else "Untitled Deck");
               userId := upload_userId u;
               createdAt := ServerTimestamp;
               updatedAt := Some ServerTimestamp;
               status := "completed";
               total_cards := length flashcards;
               source_type := Some (fileType u);
               model_used := Some (or_else model (JStr "gemini-1.5-pro-latest"));
               error_message := None;
               transcription := None;
               audio_info := None |} in
          aiTranscription ← prop aiData "transcription";
          deckData ←
            (if String.eqb (fileType u) "audio" && truthy aiTranscription then
               t_text ← prop aiTranscription "text";
               t_language ← prop aiTranscription "language";
               t_duration ← prop aiTranscription "duration";
               t_segments ← prop aiTranscription "segments";
               aiAudioInfo ← prop aiData "audio_info";
               mret {| title := title deckData; userId := userId deckData;
                       createdAt := createdAt deckData;
                       updatedAt := updatedAt deckData;
                       status := status deckData;
                       total_cards := total_cards deckData;
                       source_type := source_type deckData;
                       model_used := model_used deckData;
                       error_message := error_message deckData;
                       transcription := Some
                         {| text := t_text; language := t_language;
                            duration := t_duration;
                            segments_count :=
                              if truthy t_segments then get_length t_segments
                              else JNum 0 |};
                       audio_info :=
                         if truthy aiAudioInfo then Some aiAudioInfo else None |}
             else mret deckData);
          doc_set (DeckRef deckId) (DeckData deckData);;
          batch ← add_cards deckId flashcards 0 [];
          batch_commit batch;;
          log Info ("Successfully processed file and saved "
                    +:+ show (Z.of_nat (length flashcards))
                    +:+ " flashcards to deck: " +:+ deckId)
      | _ => early_return
      end
  end.

(** Lines 258-280: the [catch] of the handler's [try]. *)
Definition record_failure (u : Upload) (error : Thrown) : M unit :=
  log Error "Error calling AI service or saving to Firestore:";;
  try_catch
    (filename ← deck_filename (filePath u);
     t ← now;
     let deckId := upload_userId u +:+ "_" +:+ filename +:+ "_" +:+ show t
                   +:+ "_failed" in
     doc_set (DeckRef deckId) (DeckData
       {| title := (let b := basename (filePath u) in
                    if truthy_str b then default "" b else "Failed Processing");
          userId := upload_userId u;
          createdAt := ServerTimestamp;
          updatedAt := None;
          status := "failed";
          total_cards := 0;
          source_type := None;
          model_used := None;
          error_message := Some (match error with
                                 | ErrorObj message => message
                                 | NonError => "Unknown error occurred"
                                 end);
          transcription := None;
          audio_info := None |});;
     log Info ("Created failed deck entry: " +:+ deckId))
    (fun _ => log Error "Failed to create error deck entry:").

(** Lines 15-280: what the handler does once it holds the bucket. *)
Definition process (object : ObjectMetadata) : M unit :=
  u ← validate object;
  try_catch
    (aiServiceResponse ← request_flashcards u;
     persist u aiServiceResponse)
    (record_failure u).

(** The handler of the storage finalize event.  Line 14 is outside every
    [try]: what it throws ends the invocation. *)
Definition onFileUpload (object : ObjectMetadata) : M unit :=
  storage_bucket (object_bucket object);;
  process object.

(** The world after one invocation. *)
Definition run (object : ObjectMetadata) (w : World) : World :=
  (onFileUpload object w).2.
End WithEnv.

Definition empty_world : World :=
  {| db := ∅; effects := [];
     clock_reads := 0; db_writes := 0 |}.

End Functions.

(** ** The deck page (recall-ai-app/src/app/deck/[deckId]/page.tsx) *)
Module DeckPage.

(** A card as the page holds it, the [Flashcard] interface: the fields the
    interface requires are there, the optional ones may be missing. *)
Record Flashcard := {
  id : string;
  type : string;
  question : string;
  answer : string;
  source_text : option string;
  difficulty : option string;
  created_at : string
}.

(** Lines 56-60: the card the page holds for a card document whose fields
    are strings, as the handler writes them for a response of strings;
    the identifier stored in the document overrides the document's own,
    and [created_at] is what the page makes of the stored time stamp. *)
Definition read_card (data : Functions.CardDoc) (created_at : string)
    : option Flashcard :=
  match Functions.id data, Functions.type data, Functions.question data,
        Functions.answer data, Functions.source_text data,
        Functions.difficulty data with
  | JStr i, JStr t, JStr question, JStr a, JStr s, JStr d =>
      Some {| id := i; type := t; question := question; answer := a;
              source_text := Some s; difficulty := Some d;
              created_at := created_at |}
  | _, _, _, _, _, _ => None
  end.

(** What [handleExport] does to the page, in order. *)
Inductive Action :=
| Alert (message : string)
| SetExporting (b : bool)
| ExportToAnki (cards : list Flashcard) (deckName : string)
| DownloadBlob (content mimeType filename : string).

Definition q : string := String dquote "".
Definition nl : string := String "010"%char "".
Definition tab : string := String "009"%char "".

(** [v || d] on an optional string. *)
Definition or_default (v : option string) (d : string) : string :=
  if truthy_str v then default "" v else d.

(** Lines 122-124, one card of the general CSV. *)
Definition csv_row (card : Flashcard) : string :=
  q +:+ replace_quotes (question card) +:+ q +:+ "," +:+
  q +:+ replace_quotes (answer card) +:+ q +:+ "," +:+
  q +:+ type card +:+ q +:+ "," +:+
  q +:+ or_default (difficulty card) "medium" +:+ q.

(** Lines 131-133, one card of the Quizlet CSV. *)
Definition quizlet_csv_row (card : Flashcard) : string :=
  q +:+ replace_quotes (question card) +:+ q +:+ "," +:+
  q +:+ replace_quotes (answer card) +:+ q.

(** Lines 137-139, one card of the Quizlet text. *)
Definition quizlet_txt_line (card : Flashcard) : string :=
  question card +:+ tab +:+ answer card.

(** Lines 156-158, one card of the plain text. *)
Definition txt_block (index : nat) (card : Flashcard) : string :=
  "Card " +:+ show (Z.of_nat index + 1) +:+ ":" +:+ nl +:+
  "Q: " +:+ question card +:+ nl +:+
  "A: " +:+ answer card +:+ nl +:+ "---" +:+ nl.

Section Exporting.
(** The remote Anki export ([true]: resolved, [false]: thrown), the JSON
    serializer applied to the export object, and the clock. *)
Variable exportToAnki : list Flashcard -> string -> bool.
Variable JSON_stringify : option string -> nat -> string -> list Flashcard -> string.
Variable toISOString_now : string.

(** [cards.filter(card => selectedCards.has(card.id))] *)
Definition selectedCardData (cards : list Flashcard) (selectedCards : gset string)
    : list Flashcard :=
  List.filter (fun card => bool_decide (id card ∈ selectedCards)) cards.

(** [handleExport] for the deck title [deck?.title], the loaded cards, the
    selection and the chosen format. *)
Definition handleExport (deck_title : option string) (cards : list Flashcard)
    (selectedCards : gset string) (exportFormat : string) : list Action :=
  let selectedCardData := selectedCardData cards selectedCards in
  if (length selectedCardData =? 0)%nat then
    [Alert "Please select at least one card to export"]
  else
    SetExporting true ::
    if String.eqb exportFormat "anki" then
      if exportToAnki selectedCardData (or_default deck_title "FlashGen Export") then
        [ExportToAnki selectedCardData (or_default deck_title "FlashGen Export");
         Alert ("Successfully exported "
                +:+ show (Z.of_nat (length selectedCardData))
                +:+ " cards to Anki!");
         SetExporting false; SetExporting false]
      else
        [ExportToAnki selectedCardData (or_default deck_title "FlashGen Export");
         Alert "Export failed. Please try again."; SetExporting false]
    else
      let filename := or_default deck_title "flashcards" +:+ "." +:+
                      (if String.eqb exportFormat "csv" then "csv" else "txt") in
      let mimeType := "text/plain" in
      if String.eqb exportFormat "csv" then
        let content := "Front,Back,Type,Difficulty" +:+ nl in
        let content := content +:+ join nl (csv_row <$> selectedCardData) in
        [DownloadBlob content "text/csv" filename; SetExporting false]
      else if String.eqb exportFormat "quizlet-csv" then
        let filename := or_default deck_title "flashcards" +:+ ".csv" in
        let content := "Term,Definition" +:+ nl in
        let content := content +:+ join nl (quizlet_csv_row <$> selectedCardData) in
        [DownloadBlob content "text/csv" filename; SetExporting false]
      else if String.eqb exportFormat "quizlet-txt" then
        let content := join nl (quizlet_txt_line <$> selectedCardData) in
        [DownloadBlob content mimeType filename; SetExporting false]
      else if String.eqb exportFormat "json" then
        let filename := or_default deck_title "flashcards" +:+ ".json" in
        let content := JSON_stringify deck_title (length selectedCardData)
                         toISOString_now selectedCardData in
        [DownloadBlob content "application/json" filename; SetExporting false]
      else if String.eqb exportFormat "txt" then
        let content := join nl (imap txt_block selectedCardData) in
        [DownloadBlob content mimeType filename; SetExporting false]
      else
        [Alert "Export format not yet implemented"; SetExporting false;
         SetExporting false].
End Exporting.

End DeckPage.

(** ** Vocabulary of the properties of [onFileUpload] *)
Module UploadSpec.
Import Functions.

(** The world [w] with the effects [l] emitted after its own. *)
Definition add_effects (w : World) (l : list Effect) : World :=
  {| db := db w; effects := effects w ++ l;
     clock_reads := clock_reads w; db_writes := db_writes w |}.

Definition is_log (e : Effect) : bool :=
  match e with Log _ _ => true | _ => false end.

Definition is_write (e : Effect) : bool :=
  match e with DocSet _ _ | BatchCommit _ => true | _ => false end.

(** The invocation ended with no side effect but log entries: the database
    is as it was, and nothing was downloaded, requested or written. *)
Definition aborted (env : Env) (object : ObjectMetadata) (w : World) : Prop :=
  db (run env object w) = db w /\
  exists logs, effects (run env object w) = effects w ++ logs
               /\ forallb is_log logs = true.

(** A computation that may log but neither writes nor throws. *)
Definition only_logs {A} (m : M A) : Prop :=
  forall w, exists l, (m w).2 = add_effects w l /\ forallb is_log l = true
                      /\ forall e, (m w).1 <> Threw e.

(** A computation that leaves the database as it is. *)
Definition no_write {A} (m : M A) : Prop :=
  forall w, db (m w).2 = db w /\ db_writes (m w).2 = db_writes w.

(** The path shape in the words of the specification: exactly the four
    segments uploads/{kind}/{userId}/{filename}, kind documents or audio. *)
Definition path_matches (p : string) : bool :=
  match split "/" p with
  | [a; kind; _; _] =>
      String.eqb a "uploads"
      && (String.eqb kind "documents" || String.eqb kind "audio")
  | _ => false
  end.

(** The path shape the handler lets through: at least four segments, the
    first uploads, the second documents or audio, the third not empty. *)
Definition path_admitted (p : string) : bool :=
  match split "/" p with
  | a :: kind :: user :: _ :: _ =>
      String.eqb a "uploads"
      && (String.eqb kind "documents" || String.eqb kind "audio")
      && negb (String.eqb user "")
  | _ => false
  end.

(** The kind segment of the object's path. *)
Definition declared_kind (object : ObjectMetadata) : option string :=
  p ← object_name object; split "/" p !! 1%nat.

(** The byte size the object declares. *)
Definition declared_size (object : ObjectMetadata) : option Z :=
  s ← object_size object; parseInt s.

(** The content-type and extension checks of a kind (lines 52-65, 74-87). *)
Definition type_and_extension_ok (kind contentType filePath : string) : bool :=
  if String.eqb kind "documents" then
    type_allowed allowedDocumentTypes contentType
    && includes allowedDocumentExtensions (fileExtension filePath)
  else
    type_allowed allowedAudioTypes contentType
    && includes allowedAudioExtensions (fileExtension filePath).

(** The handler obtained the bucket, the upload passed validation as [u]
    and the AI service answered the request with the body [aiData]; [w2]
    is the world at that point. *)
Definition received (env : Env) (object : ObjectMetadata) (w : World)
    (u : Upload) (aiData : JsVal) (w2 : World) : Prop :=
  object_bucket object <> ""
  /\ exists w1, validate object w = (Value u, w1)
                /\ request_flashcards env u w1 = (Value (Some aiData), w2).

(** The body reports success and carries the list [cards]. *)
Definition successful (aiData : JsVal) (cards : list JsVal) : Prop :=
  exists success, get aiData "success" = Some success
                  /\ truthy success = true
                  /\ get aiData "flashcards" = Some (JArr cards).


(** A flashcard of the response: an object whose id, when it has one, is a
    string without a slash, which names a document of the cards
    collection. *)
Definition well_formed (card : JsVal) : bool :=
  match card with
  | JObj fields =>
      match assoc "id" fields with
      | JStr s => negb (occurs "/" s)
      | v => negb (truthy v)
      end
  | _ => false
  end.

(** The identifier under which the card at [index] is written. *)
Definition card_key (index : nat) (card : JsVal) : JsVal :=
  or_else (default JUndefined (get card "id"))
          (JStr ("card_" +:+ show (Z.of_nat index + 1))).

(** The write that the [forEach] adds for the card at [index], when the card
    is well formed. *)
Definition card_write (deckId : string) (index : nat) (card : JsVal)
    : DocRef * DocData :=
  let field k := default JUndefined (get card k) in
  let c := make_cardData (field "id") (field "type") (field "question")
             (field "answer") (field "source_text") (field "difficulty") index in
  (CardRef deckId (match id c with JStr s => s | _ => "" end), CardData c).

(** The two writes of a successful run are not rejected. *)
Definition writes_ok (env : Env) (w2 : World) : Prop :=
  write_fault env (db_writes w2) = None
  /\ write_fault env (S (db_writes w2)) = None.




(** All writes of the run, the Deck with [total_cards = K] and [K] cards,
    are the content of one batch commit. *)
Definition persisted_in_one_commit (env : Env) (object : ObjectMetadata)
    (w : World) (K : nat) : Prop :=
  exists batch deckId d,
    List.filter is_write (effects (run env object w)) = [BatchCommit batch]
    /\ (DeckRef deckId, DeckData d) ∈ batch
    /\ total_cards d = K
    /\ length batch = S K.

(** No Deck and no Flashcard record is created or changed. *)
Definition creates_no_record (env : Env) (object : ObjectMetadata) (w : World)
    : Prop :=
  db (run env object w) = db w.


(** After the response, the run set one Deck document (completed, with
    [total_cards = K]) and then committed one batch of [K] card writes to [K]
    distinct documents of that Deck; afterwards the database holds the Deck
    and every written card, and is unchanged elsewhere. *)
Definition deck_then_card_batch (env : Env) (object : ObjectMetadata)
    (w w2 : World) (K : nat) : Prop :=
  exists deckId deckData batch msg,
    effects (run env object w)
    = effects w2 ++ [Log Info "Received response from AI service";
                     DocSet (DeckRef deckId) (DeckData deckData);
                     BatchCommit batch;
                     Log Info msg]
    /\ status deckData = "completed" /\ total_cards deckData = K
    /\ length batch = K /\ NoDup batch.*1
    /\ (forall r d, (r, d) ∈ batch ->
          exists cardId c, r = CardRef deckId cardId /\ d = CardData c)
    /\ db (run env object w) !! DeckRef deckId = Some (DeckData deckData)
    /\ (forall r d, (r, d) ∈ batch -> db (run env object w) !! r = Some d)
    /\ (forall r, r <> DeckRef deckId -> r ∉ batch.*1 ->
          db (run env object w) !! r = db w !! r).

(** [result] is [given] when that is present, and [fallback] when it is
    missing: absent ([undefined]), [null], or otherwise falsy. *)
Definition fills (given fallback result : JsVal) : Prop :=
  if truthy given then result = given else result = fallback.

(** The card record [c] is the response's card [fields] at [index] with
    every missing field replaced by its fixed default. *)
Definition defaults_filled (index : nat) (fields : list (string * JsVal))
    (c : CardDoc) : Prop :=
  fills (assoc "id" fields)
        (JStr ("card_" +:+ show (Z.of_nat index + 1))) (id c)
  /\ fills (assoc "type" fields) (JStr "qa") (type c)
  /\ fills (assoc "question" fields) (JStr "No question generated")
           (question c)
  /\ fills (assoc "answer" fields) (JStr "No answer provided") (answer c)
  /\ fills (assoc "source_text" fields) (JStr "Source text not available")
           (source_text c)
  /\ fills (assoc "difficulty" fields) (JStr "medium") (difficulty c).

(** The run committed a batch with one write per card of the response,
    the write at each position being the card with its defaults filled. *)
Definition cards_written_with_defaults (env : Env) (object : ObjectMetadata)
    (w : World) (cards : list JsVal) : Prop :=
  exists deckId deckData batch,
    BatchCommit batch ∈ effects (run env object w)
    /\ db (run env object w)
       = apply_batch batch (<[DeckRef deckId := DeckData deckData]> (db w))
    /\ length batch = length cards
    /\ forall index fields,
         cards !! index = Some (JObj fields) ->
         exists cardId c,
           batch !! index = Some (CardRef deckId cardId, CardData c)
           /\ id c = JStr cardId
           /\ defaults_filled index fields c.

(** The cards at positions [i] and [j] were written to the same document,
    and the batch addresses fewer documents than the Deck's [total_cards]. *)
Definition cards_share_document (env : Env) (object : ObjectMetadata)
    (w : World) (i j : nat) (s : string) : Prop :=
  exists deckId deckData batch ci cj,
    DocSet (DeckRef deckId) (DeckData deckData) ∈ effects (run env object w)
    /\ BatchCommit batch ∈ effects (run env object w)
    /\ db (run env object w)
       = apply_batch batch (<[DeckRef deckId := DeckData deckData]> (db w))
    /\ batch !! i = Some (CardRef deckId s, CardData ci)
    /\ batch !! j = Some (CardRef deckId s, CardData cj)
    /\ (size (list_to_set batch.*1 : gset DocRef) < total_cards deckData)%nat.

(** The flashcards at the positions [i] and [j] carry the same id. *)
Definition carry_same_id (cards : list JsVal) (i j : nat) : Prop :=
  exists fi fj v,
    i <> j /\ cards !! i = Some (JObj fi) /\ cards !! j = Some (JObj fj)
    /\ assoc "id" fi = v /\ assoc "id" fj = v /\ v <> JUndefined.

(** The claim's conclusion in its words: the writes of the run are a Deck
    and a batch that addresses strictly fewer documents than the Deck's
    [total_cards]. *)
Definition fewer_documents_than_cards (env : Env) (object : ObjectMetadata)
    (w : World) : Prop :=
  exists deckId deckData batch,
    List.filter is_write (effects (run env object w))
    = [DocSet (DeckRef deckId) (DeckData deckData); BatchCommit batch]
    /\ (size (list_to_set batch.*1 : gset DocRef) < total_cards deckData)%nat.

(** *** Sample inputs *)

Definition sample_text : string :=
  "Photosynthesis converts light energy into chemical energy.".

Definition sample_env (file : Result (option Buffer)) (answer : Result JsVal)
    : Env :=
  {| download := fun _ _ => file;
     pdfParse := fun b => Resolved b;
     toString_utf8 := fun b => b;
     axios_post := fun _ _ _ => answer;
     Date_now := fun k => 1700000000000 + Z.of_nat k;
     write_fault := fun _ => None |}.

Definition sample_object (path : string) (size : option string)
    : ObjectMetadata :=
  {| object_name := Some path; object_contentType := Some "text/plain";
     object_size := size; object_bucket := "recall-ai.appspot.com" |}.

Definition body_of (flashcards : list JsVal) : JsVal :=
  JObj [("success", JBool true); ("flashcards", JArr flashcards);
        ("count", JNum (Z.of_nat (length flashcards)))].

Definition two_cards : list JsVal :=
  [JObj [("id", JStr "c1"); ("question", JStr "Q1"); ("answer", JStr "A1")];
   JObj [("question", JStr "Q2"); ("difficulty", JStr "hard")]].

Definition twin_cards : list JsVal :=
  [JObj [("id", JStr "c1"); ("question", JStr "Q1"); ("answer", JStr "A1")];
   JObj [("id", JStr "c1"); ("question", JStr "Q2"); ("answer", JStr "A2")]].

(** Two flashcards that carry the same identifier, the empty string. *)
Definition blank_twins : list JsVal :=
  [JObj [("id", JStr ""); ("question", JStr "Q1"); ("answer", JStr "A1")];
   JObj [("id", JStr ""); ("question", JStr "Q2"); ("answer", JStr "A2")]].

Definition notes_upload : ObjectMetadata :=
  sample_object "uploads/documents/u1/notes.txt" (Some "58").

Definition notes_u : Upload :=
  {| bucket := "recall-ai.appspot.com";
     filePath := "uploads/documents/u1/notes.txt";
     contentType := "text/plain";
     pathParts := Some ["uploads"; "documents"; "u1"; "notes.txt"];
     upload_userId := "u1"; fileType := "documents" |}.

(** The world in which the sample upload has passed validation. *)
Definition notes_validated : World := (validate notes_upload empty_world).2.

(** The world in which the sample upload has been answered. *)
Definition notes_answered (env : Env) : World :=
  (request_flashcards env notes_u notes_validated).2.

Definition nested_upload : ObjectMetadata :=
  sample_object "uploads/documents/u1/sub/notes.txt" (Some "58").

Definition answering (flashcards : list JsVal) : Env :=
  sample_env (Resolved (Some sample_text)) (Resolved (body_of flashcards)).





End UploadSpec.

(** ** Vocabulary of the properties of [handleExport] *)
Module ExportSpec.
Import DeckPage.

(** Stand-ins for the collaborators the text formats do not use. *)
Definition anki_resolves : list Flashcard -> string -> bool :=
  fun _ _ => true.
Definition json_unused
    : option string -> nat -> string -> list Flashcard -> string :=
  fun _ _ _ _ => "".

(** Neither the question nor the answer of the card holds a line break. *)
Definition single_line (card : Flashcard) : Prop :=
  occurs "010" (question card) = false /\ occurs "010" (answer card) = false.

(** The card of the specification's CSV example as the AI service
    returns it: a question with an embedded double quote, an answer, and
    no other field. *)
Definition example_response_card : JsVal :=
  JObj [("question", JStr ("Q1" +:+ String "034"%char "x"));
        ("answer", JStr "A1")].

(** The record the handler stores for it: [cardData] of lines 240-248 at
    index 0, the fields the card lacks read as [undefined]. *)
Definition example_stored_card : Functions.CardDoc :=
  let field k := default JUndefined (get example_response_card k) in
  Functions.make_cardData (field "id") (field "type") (field "question")
    (field "answer") (field "source_text") (field "difficulty") 0.

(** A deck of three cards as the page holds them. *)
Definition example_card_qa : Flashcard :=
  {| id := "c1"; type := "qa"; question := "Q1" +:+ String "034"%char "x";
     answer := "A1"; source_text := None; difficulty := None;
     created_at := "" |}.

Definition second_card : Flashcard :=
  {| id := "c2"; type := "cloze"; question := "Q2"; answer := "A2";
     source_text := None; difficulty := Some "hard"; created_at := "" |}.

Definition third_card : Flashcard :=
  {| id := "c3"; type := "definition"; question := "Q3"; answer := "A3";
     source_text := None; difficulty := Some "easy"; created_at := "" |}.

(** A card whose question runs over two lines. *)
Definition two_line_card : Flashcard :=
  {| id := "c1"; type := "qa";
     question := "Q1" +:+ String "010"%char "continued"; answer := "A1";
     source_text := None; difficulty := None; created_at := "" |}.

(** The claim that the export of two selected cards has exactly two
    lines, in its words: the downloaded content splits at the line breaks
    into two pieces. *)
Definition two_lines (actions : list Action) : Prop :=
  exists content mimeType filename,
    actions = [SetExporting true; DownloadBlob content mimeType filename;
               SetExporting false]
    /\ length (split "010" content) = 2%nat.

End ExportSpec.

(** ** Vocabulary of further properties of [onFileUpload] *)
Module HandlerSpec.
Import Functions UploadSpec.

Definition is_request (e : Effect) : bool :=
  match e with HttpPost _ _ _ => true | _ => false end.

(** The number of requests to the AI service among the effects [l]. *)
Definition requests (l : list Effect) : nat :=
  length (List.filter is_request l).

(** A computation that never ends by throwing. *)
Definition never_throws {A} (m : M A) : Prop :=
  forall w e, (m w).1 <> Threw e.

(** A computation that only adds effects, with at most [n] requests among
    them. *)
Definition at_most_requests {A} (n : nat) (m : M A) : Prop :=
  forall w, exists l, effects (m w).2 = effects w ++ l
                      /\ (requests l <= n)%nat.

(** A computation that only adds effects, each of them satisfying [P]. *)
Definition emits {A} (P : Effect -> Prop) (m : M A) : Prop :=
  forall w, exists l, effects (m w).2 = effects w ++ l /\ Forall P l.

(** What a request to the AI service looks like: a text of 10 to 100000
    characters for 15 cards posted to /process with no request
    configuration, or an audio form for 12 cards posted to /process-audio
    with a timeout of five minutes and a size limit of 50 MiB. *)
Definition bounded_request (e : Effect) : Prop :=
  match e with
  | HttpPost url (TextBody text num_cards) config =>
      url = AI_SERVICE_URL +:+ "/process"
      /\ num_cards = 15
      /\ minTextLength <= Z.of_nat (String.length text) <= maxTextLength
      /\ config = {| timeout := None; maxContentLength := None |}
  | HttpPost url (AudioForm _ _ _ num_cards) config =>
      url = AI_SERVICE_URL +:+ "/process-audio"
      /\ num_cards = "12"
      /\ config = {| timeout := Some 300000;
                     maxContentLength := Some (50 * 1024 * 1024) |}
  | _ => True
  end.



(** The text of a document is extracted: the download is not empty and the
    extracted text is neither blank nor shorter than the minimum. *)
Definition extracted (env : Env) (u : Upload) (textContent : string) : Prop :=
  exists buffer,
    fileType u = "documents"
    /\ download env (bucket u) (filePath u) = Resolved (Some buffer)
    /\ buffer <> ""
    /\ extract_text env u buffer = Resolved textContent
    /\ trim textContent <> ""
    /\ minTextLength <= Z.of_nat (String.length textContent).



(** An environment in which the AI service cannot be reached and every
    write is rejected. *)
Definition offline_env : Env :=
  {| download := fun _ _ => Resolved (Some sample_text);
     pdfParse := fun b => Resolved b;
     toString_utf8 := fun b => b;
     axios_post := fun _ _ _ => Rejected (ErrorObj "Network Error");
     Date_now := fun k => 1700000000000 + Z.of_nat k;
     write_fault := fun _ => Some (ErrorObj "UNAVAILABLE") |}.

(** Everything [validate] has checked once it hands an upload on. *)
Definition checked (object : ObjectMetadata) (u : Upload) : Prop :=
  object_name object = Some (filePath u)
  /\ object_contentType object = Some (contentType u)
  /\ contentType u <> ""
  /\ bucket u = object_bucket object
  /\ pathParts u = Some (split "/" (filePath u))
  /\ path_admitted (filePath u) = true
  /\ split "/" (filePath u) !! 1%nat = Some (fileType u)
  /\ split "/" (filePath u) !! 2%nat = Some (upload_userId u)
  /\ upload_userId u <> ""
  /\ (fileType u = "documents" \/ fileType u = "audio")
  /\ exceeds (object_size object)
       (if String.eqb (fileType u) "documents"
        then maxDocumentSize else maxAudioSize) = false
  /\ type_and_extension_ok (fileType u) (contentType u) (filePath u) = true.


(** The user segment of the object's path. *)
Definition declared_user (object : ObjectMetadata) : option string :=
  p ← object_name object; split "/" p !! 2%nat.

(** A write of a card document of the deck [deckId]. *)
Definition card_of (deckId : string) (wr : DocRef * DocData) : Prop :=
  exists cardId c, wr = (CardRef deckId cardId, CardData c).

(** A write on behalf of [user]: a deck document that names [user] as its
    owner under an identifier that begins with the user's identifier, or a
    batch of card documents of one such deck. *)
Definition owned_by (user : string) (e : Effect) : Prop :=
  match e with
  | DocSet (DeckRef deckId) (DeckData d) =>
      userId d = user /\ startsWith deckId (user +:+ "_") = true
  | DocSet _ _ => False
  | BatchCommit writes =>
      exists deckId, startsWith deckId (user +:+ "_") = true
                     /\ Forall (card_of deckId) writes
  | _ => True
  end.

(** Every write among the effects is made on behalf of the user the
    object's path names. *)
Definition owned (object : ObjectMetadata) (e : Effect) : Prop :=
  match declared_user object with
  | Some user => owned_by user e
  | None => is_write e = false
  end.


(** The deck a reference lies under. *)
Definition deck_of (r : DocRef) : string :=
  match r with DeckRef d | CardRef d _ => d end.

(** The references under deck identifiers that begin with the identifier
    of [user] and an underscore. *)
Definition in_namespace (user : string) (r : DocRef) : bool :=
  startsWith (deck_of r) (user +:+ "_").

(** A computation that leaves every document outside [S] as it is. *)
Definition touches_only {A} (S : DocRef -> bool) (m : M A) : Prop :=
  forall w r, S r = false -> db (m w).2 !! r = db w !! r.


(** A recording uploaded as audio, and what validation makes of it. *)
Definition lecture_upload : ObjectMetadata :=
  {| object_name := Some "uploads/audio/u1/lecture.mp3";
     object_contentType := Some "audio/mpeg";
     object_size := Some "1048576";
     object_bucket := "recall-ai.appspot.com" |}.








End HandlerSpec.

(** ** The selection of cards on the deck page
    (recall-ai-app/src/app/deck/[deckId]/page.tsx, lines 65-92) *)
Module Selection.
Import DeckPage.

(** Line 65, the selection after the cards are loaded:
    [new Set(cardsData.map(card => card.id))]. *)
Definition loaded_selection (cardsData : list Flashcard) : gset string :=
  list_to_set (id <$> cardsData).

(** Lines 76-84; the result is the new value of [selectedCards]. *)
Definition handleCardToggle (selectedCards : gset string) (cardId : string)
    : gset string :=
  let newSelected := selectedCards in
  if bool_decide (cardId ∈ newSelected)
  then newSelected ∖ {[cardId]}
  else newSelected ∪ {[cardId]}.

(** Lines 86-92; the result is the new value of [selectedCards]. *)
Definition handleSelectAll (cards : list Flashcard)
    (selectedCards : gset string) : gset string :=
  if (size selectedCards =? length cards)%nat
  then ∅
  else list_to_set (id <$> cards).

(** What a click on a card or on the select-all button is. *)
Inductive Click :=
| Toggle (cardId : string)
| SelectAll.

Definition click (cards : list Flashcard) (selectedCards : gset string)
    (c : Click) : gset string :=
  match c with
  | Toggle cardId => handleCardToggle selectedCards cardId
  | SelectAll => handleSelectAll cards selectedCards
  end.

(** The click is on a card the page shows, or on the button. *)
Definition shown (cards : list Flashcard) (c : Click) : Prop :=
  match c with
  | Toggle cardId => cardId ∈ id <$> cards
  | SelectAll => True
  end.

(** An export hands a file, or the cards, over. *)
Definition is_delivery (a : Action) : bool :=
  match a with
  | DownloadBlob _ _ _ | ExportToAnki _ _ => true
  | _ => false
  end.

Definition three_cards : list Flashcard :=
  [ExportSpec.example_card_qa; ExportSpec.second_card;
   ExportSpec.third_card].

End Selection.

(** ** The Anki export (recall-ai-app/src/lib/ankiExport.ts) *)
Module AnkiExport.
Import DeckPage.

(** The body of the service's answer. *)
Record AnkiExportResponse := {
  success : bool;
  filename : string;
  data : string;
  response_size : Z;
  cards_exported : Z;
  error : option string
}.

(** The answer of [fetch]; [json] is the settlement of
    [response.json()]. *)
Record Response := {
  ok : bool;
  status : Z;
  json : Functions.Result AnkiExportResponse
}.

(** What [exportToAnki] does, in order. *)
Inductive Trace :=
| ConsoleLog (message : string)
| ConsoleError (message : string) (e : Functions.Thrown)
| Fetch (url : string) (flashcards : list Flashcard) (deck_name : string)
| SaveFile (name : string) (bytes : string).

Definition AI_SERVICE_URL : string := "http://localhost:8080".

Section Service.
(** [fetch] with the POST of the cards and the deck name, and [atob]. *)
Variable fetch : string -> list Flashcard -> string -> Functions.Result Response.
Variable atob : string -> Functions.Result string.

(** Lines 21-67, the body of the [try]. *)
Definition attempt (cards : list Flashcard) (deckName : string)
    : list Trace * Functions.Result unit :=
  let begun :=
    [ConsoleLog ("Exporting " +:+ show (Z.of_nat (length cards))
                 +:+ " cards to Anki deck: " +:+ deckName);
     Fetch (AI_SERVICE_URL +:+ "/export-anki") cards deckName] in
  match fetch (AI_SERVICE_URL +:+ "/export-anki") cards deckName with
  | Functions.Rejected e => (begun, Functions.Rejected e)
  | Functions.Resolved response =>
      if negb (ok response) then
        (begun, Functions.Rejected (Functions.ErrorObj
                  ("HTTP error! status: " +:+ show (status response))))
      else
        match json response with
        | Functions.Rejected e => (begun, Functions.Rejected e)
        | Functions.Resolved result =>
            if negb (success result) then
              (begun, Functions.Rejected (Functions.ErrorObj
                        (or_default (error result) "Failed to export to Anki")))
            else
              match atob (data result) with
              | Functions.Rejected e => (begun, Functions.Rejected e)
              | Functions.Resolved binaryString =>
                  (begun ++
                   [SaveFile (filename result) binaryString;
                    ConsoleLog ("Successfully exported "
                                +:+ show (cards_exported result)
                                +:+ " cards to " +:+ filename result)],
                   Functions.Resolved tt)
              end
        end
  end.

(** [exportToAnki]: what is thrown is logged and thrown again. *)
Definition exportToAnki (cards : list Flashcard) (deckName : string)
    : list Trace * Functions.Result unit :=
  match attempt cards deckName with
  | (trace, Functions.Rejected e) =>
      (trace ++ [ConsoleError "Error exporting to Anki:" e],
       Functions.Rejected e)
  | r => r
  end.

(** Whether the promise of [exportToAnki] is fulfilled, which is all the
    deck page observes of it. *)
Definition fulfilled (cards : list Flashcard) (deckName : string) : bool :=
  match (exportToAnki cards deckName).2 with
  | Functions.Resolved _ => true
  | Functions.Rejected _ => false
  end.
End Service.

Definition is_save (t : Trace) : bool :=
  match t with SaveFile _ _ => true | _ => false end.

Definition is_fetch (t : Trace) : bool :=
  match t with Fetch _ _ _ => true | _ => false end.

(** The alert with which the deck page reports a successful export to
    Anki (page.tsx, line 108). *)
Definition announces_success (a : Action) : bool :=
  match a with
  | Alert message => startsWith message "Successfully exported"
  | _ => false
  end.

(** A service that answers every request with one package. *)
Definition packaging : string -> list Flashcard -> string
                       -> Functions.Result Response :=
  fun _ cards deckName =>
    Functions.Resolved
      {| ok := true; status := 200;
         json := Functions.Resolved
           {| success := true; filename := deckName +:+ ".apkg";
              data := "UEsDBA=="; response_size := 4;
              cards_exported := Z.of_nat (length cards); error := None |} |}.

Definition decoding : string -> Functions.Result string :=
  fun s => Functions.Resolved s.

End AnkiExport.

(** ** The upload components (FileUpload and
    recall-ai-app/src/components/AudioUpload.tsx) *)
Module Uploads.

(** The fields of a browser [File] the components read. *)
Record File := {
  file_name : string;
  file_type : string;
  file_size : Z
}.

Record User := { uid : string }.

(** What a handler does to its component, in order. *)
Inductive Action :=
| SetError (error : option string)
| SetUploading (b : bool)
| UploadBytes (path : string) (file : File).

(** [handleUpload] of FileUpload, lines 27-41. *)
Definition document_handleUpload (file : option File) (user : option User)
    : list Action :=
  match file with
  | None => [SetError (Some "Please select a file first!")]
  | Some file =>
      match user with
      | None => [SetError (Some "You must be logged in to upload files!")]
      | Some user =>
          [SetUploading true; SetError None;
           UploadBytes ("uploads/documents/" +:+ uid user +:+ "/"
                        +:+ file_name file) file]
      end
  end.

(** AudioUpload, lines 25-26. *)
Definition allowedTypes : list string :=
  ["audio/mp3"; "audio/wav"; "audio/m4a"; "audio/flac"; "audio/aac";
   "audio/ogg"; "audio/mpeg"].
Definition maxSizeBytes : Z := 50 * 1024 * 1024.

(** The state of the audio component that its handlers read. *)
Record State := {
  file : option File;
  error : option string;
  uploading : bool
}.

Definition initial : State :=
  {| file := None; error := None; uploading := false |}.

(** What happens to the audio component. *)
Inductive Event :=
| Select (selectedFile : File)
| Remove
| PressUpload (user : option User)
| UploadFailed
| UploadCompleted.

Section Audio.
(** [formatFileSize], which computes with floating-point logarithms. *)
Variable formatFileSize : Z -> string.

(** Lines 42-52. *)
Definition validateFile (file : File) : option string :=
  if negb (includes allowedTypes (file_type file)) then
    Some "Unsupported file type. Please use: MP3, WAV, M4A, FLAC, AAC, or OGG"
  else if file_size file >? maxSizeBytes then
    Some ("File too large. Maximum size is " +:+ formatFileSize maxSizeBytes)
  else None.

(** Lines 75-83, the part of [handleFileSelect] that sets the file and the
    error. *)
Definition handleFileSelect (st : State) (selectedFile : File) : State :=
  let validationError := validateFile selectedFile in
  if truthy_str validationError then
    {| file := file st; error := validationError; uploading := uploading st |}
  else
    {| file := Some selectedFile; error := None; uploading := uploading st |}.

(** Lines 166-173. *)
Definition handleRemoveFile (st : State) : State :=
  {| file := None; error := None; uploading := uploading st |}.

(** Lines 121-132: the new state and the upload that is started. *)
Definition handleUpload (st : State) (user : option User)
    : State * list Action :=
  match file st, user with
  | Some f, Some user =>
      ({| file := file st; error := None; uploading := true |},
       [SetUploading true; SetError None;
        UploadBytes ("uploads/audio/" +:+ uid user +:+ "/" +:+ file_name f) f])
  | _, _ =>
      let message :=
        match user with
        | None => "You must be logged in to upload files!"
        | Some _ => "Please select a file first!"
        end in
      ({| file := file st; error := Some message; uploading := uploading st |},
       [SetError (Some message)])
  end.

(** Lines 140-146 and 147-161, the callbacks of the upload task. *)
Definition upload_failed (st : State) : State :=
  {| file := file st; error := Some "Upload failed. Please try again.";
     uploading := false |}.

Definition upload_completed (st : State) : State :=
  {| file := None; error := error st; uploading := false |}.

Definition step (st : State) (ev : Event) : State * list Action :=
  match ev with
  | Select selectedFile => (handleFileSelect st selectedFile, [])
  | Remove => (handleRemoveFile st, [])
  | PressUpload user => handleUpload st user
  | UploadFailed => (upload_failed st, [])
  | UploadCompleted => (upload_completed st, [])
  end.

(** The file the component holds has passed its validation. *)
Definition holds_valid (st : State) : Prop :=
  forall f, file st = Some f -> validateFile f = None.

(** The component after the events, and everything it did. *)
Fixpoint run_events (st : State) (evs : list Event) : State * list Action :=
  match evs with
  | [] => (st, [])
  | ev :: rest =>
      let '(st1, done1) := step st ev in
      let '(st2, done2) := run_events st1 rest in
      (st2, done1 ++ done2)
  end.
End Audio.

(** The storage object an upload of [file] to [path] leaves: the name is
    the path, the content type the type of the file, the size its byte
    count in decimal. *)
Definition stored (bucket path : string) (file : File)
    : Functions.ObjectMetadata :=
  {| Functions.object_name := Some path;
     Functions.object_contentType := Some (file_type file);
     Functions.object_size := Some (show (file_size file));
     Functions.object_bucket := bucket |}.

Definition lecture : File :=
  {| file_name := "lecture.mp3"; file_type := "audio/mpeg";
     file_size := 1048576 |}.

Definition slides : File :=
  {| file_name := "notes.txt"; file_type := "text/plain"; file_size := 58 |}.

Definition megabytes : Z -> string := fun _ => "50 MB".

End Uploads.

(** ** Facts about the string primitives *)
Module JsFacts.

Lemma append_assoc (a b c : string) : (a +:+ b) +:+ c = a +:+ b +:+ c.
Proof.
  induction a as [|x a IH]; [done|]. unfold String.app in *. simpl.
  by rewrite IH.
Qed.

(** *** [parseInt] reads back the decimal rendering of a size *)

Lemma digit_value_pretty d :
  (d < 10)%N -> digit_value 10 (pretty_N_char d) = Some (Z.of_N d).
Proof.
  intros Hd. rewrite <- (N2Nat.id d).
  assert (N.to_nat d < 10)%nat as Hn by lia.
  destruct (N.to_nat d) as [|[|[|[|[|[|[|[|[|[|?]]]]]]]]]]; try lia; reflexivity.
Qed.

Lemma parse_digits_pretty x :
  (0 < x)%N ->
  exists k : nat, forall s acc,
    parse_digits 10 (pretty_N_go x s) acc
    = parse_digits 10 s
        (Some (from_option id 0 acc * 10 ^ Z.of_nat k + Z.of_N x)).
Proof.
  induction (N.lt_wf_0 x) as [x _ IH]. intros Hx.
  assert (Hd : (x `mod` 10 < 10)%N) by (apply N.mod_lt; lia).
  pose proof (N.div_mod x 10 ltac:(lia)) as Hdm.
  destruct (decide (x `div` 10 = 0)%N) as [Hz|Hz].
  - exists 1%nat. intros s acc.
    rewrite pretty_N_go_step, Hz, pretty_N_go_0 by done.
    simpl parse_digits. rewrite digit_value_pretty by done.
    do 2 f_equal. change (10 ^ Z.of_nat 1) with 10. lia.
  - destruct (IH (x `div` 10)%N) as [k Hk].
    { apply N.div_lt; lia. } { lia. }
    exists (S k). intros s acc. rewrite pretty_N_go_step, Hk by done.
    simpl parse_digits. rewrite digit_value_pretty by done.
    do 2 f_equal. rewrite Nat2Z.inj_succ, Z.pow_succ_r by lia.
    simpl from_option. lia.
Qed.

(** The rendering of a positive number starts with a digit, and a digit
    follows unless the rendering ends there. *)
Lemma pretty_go_head x s :
  (0 < x)%N ->
  (s = "" \/ exists c r, s = String c r /\ is_Some (digit_value 10 c)) ->
  exists c r, pretty_N_go x s = String c r /\ is_Some (digit_value 10 c)
              /\ (r = "" \/ exists c' r', r = String c' r'
                                          /\ is_Some (digit_value 10 c')).
Proof.
  revert s. induction (N.lt_wf_0 x) as [x _ IH]. intros s Hx Hs.
  assert (Hd : (x `mod` 10 < 10)%N) by (apply N.mod_lt; lia).
  assert (Hc : is_Some (digit_value 10 (pretty_N_char (x `mod` 10))))
    by (by rewrite digit_value_pretty).
  rewrite pretty_N_go_step by done.
  destruct (decide (x `div` 10 = 0)%N) as [Hz|Hz].
  - rewrite Hz, pretty_N_go_0. eauto 10.
  - apply IH; [apply N.div_lt; lia | by apply N.neq_0_lt_0 | right; eauto 10].
Qed.

Lemma parseInt_show n : 0 <= n -> parseInt (show n) = Some n.
Proof.
  intros Hn. destruct n as [|p|p]; [done| |lia].
  unfold show, pretty, pretty_Z, pretty, pretty_positive, pretty, pretty_N.
  rewrite decide_False by done.
  destruct (pretty_go_head (N.pos p) "") as (c & r & Hp & Hc & Hr);
    [done | by left |].
  destruct (parse_digits_pretty (N.pos p)) as [k Hk]; [done|].
  specialize (Hk "" None). rewrite Hp in Hk |- *. simpl in Hk.
  assert (Hparse : parse_unsigned (String c r) = Some (Z.pos p)).
  { rewrite Z.mul_0_l, Z.add_0_l in Hk.
    rewrite <- Hk. unfold parse_unsigned. simpl parse_digits.
    destruct Hr as [-> | (c' & r' & -> & [d' Hc'])]; [by repeat case_match|].
    repeat case_match; try done; simplify_eq; by vm_compute in Hc'. }
  unfold parseInt. destruct Hc as [d Hd].
  assert (is_white_space c = false) as Hsp.
  { destruct (is_white_space c) eqn:E; [|done].
    unfold is_white_space, Ascii.is_space in E.
    apply orb_true_iff in E as [E|E].
    - repeat case_match; simplify_eq; by vm_compute in Hd.
    - apply Ascii.eqb_eq in E as ->. by vm_compute in Hd. }
  simpl trimStart. rewrite Hsp.
  repeat case_match; simplify_eq; try done; by vm_compute in Hd.
Qed.

(** *** Splitting at a separator *)

Lemma split_single sep s : occurs sep s = false -> split sep s = [s].
Proof.
  induction s as [|c s IH]; [done|]. simpl.
  intros [Hc Hs]%orb_false_iff. rewrite Hc, IH by done. done.
Qed.

Lemma split_line sep a b :
  occurs sep a = false ->
  split sep (a +:+ String sep b) = a :: split sep b.
Proof.
  induction a as [|c a IH]; simpl.
  - intros _. unfold String.app. simpl. by rewrite Ascii.eqb_refl.
  - intros [Hc Ha]%orb_false_iff. unfold String.app in *. simpl.
    rewrite Hc, IH by done. done.
Qed.

Lemma occurs_app c a b : occurs c (a +:+ b) = occurs c a || occurs c b.
Proof.
  induction a as [|x a IH]; [done|]. unfold String.app in *. simpl.
  by rewrite IH, orb_assoc.
Qed.

(** *** Identifiers without a slash *)

Lemma digit_not_slash d :
  (d < 10)%N -> Ascii.eqb (pretty_N_char d) "/" = false.
Proof.
  intros Hd. rewrite <- (N2Nat.id d).
  assert (N.to_nat d < 10)%nat as Hn by lia.
  destruct (N.to_nat d) as [|[|[|[|[|[|[|[|[|[|?]]]]]]]]]]; try lia; reflexivity.
Qed.

Lemma occurs_pretty_go x s :
  (0 < x)%N -> occurs "/" (pretty_N_go x s) = occurs "/" s.
Proof.
  revert s. induction (N.lt_wf_0 x) as [x _ IH]. intros s Hx.
  assert (Hd : (x `mod` 10 < 10)%N) by (apply N.mod_lt; lia).
  rewrite pretty_N_go_step by done.
  assert (occurs "/" (String (pretty_N_char (x `mod` 10)) s) = occurs "/" s)
    as Hc by (simpl; by rewrite digit_not_slash).
  destruct (decide (x `div` 10 = 0)%N) as [Hz|Hz].
  - by rewrite Hz, pretty_N_go_0.
  - rewrite IH; [done | apply N.div_lt; lia | by apply N.neq_0_lt_0].
Qed.

Lemma show_no_slash n : 0 <= n -> occurs "/" (show n) = false.
Proof.
  intros Hn. destruct n as [|p|p]; [done| |lia].
  unfold show, pretty, pretty_Z, pretty, pretty_positive, pretty, pretty_N.
  rewrite decide_False by done. by rewrite occurs_pretty_go.
Qed.

Lemma no_slash_no_double_slash s :
  occurs "/" s = false -> has_double_slash s = false.
Proof.
  induction s as [|c s IH]; [done|]. simpl.
  intros [Hc Hs]%orb_false_iff. rewrite IH by done.
  destruct s; by repeat case_match.
Qed.

Lemma path_segments_single s :
  s <> "" -> occurs "/" s = false -> path_segments s = [s].
Proof.
  intros Hne%String.eqb_neq Hs. unfold path_segments.
  rewrite split_single by done. simpl. by rewrite Hne.
Qed.

(** The primitives on the inputs the handler meets. *)

Example split_upload_path :
  split "/" "uploads/documents/u1/notes.txt"
  = ["uploads"; "documents"; "u1"; "notes.txt"].
Proof. reflexivity. Qed.

Example split_trailing_slash : split "/" "uploads/" = ["uploads"; ""].
Proof. reflexivity. Qed.

Example parseInt_decimal : parseInt "10485761" = Some 10485761.
Proof. reflexivity. Qed.

Example parseInt_stops_at_letter : parseInt " 42px" = Some 42.
Proof. reflexivity. Qed.

Example parseInt_nan : parseInt "" = None /\ parseInt "big" = None.
Proof. split; reflexivity. Qed.

Example substring_lastIndexOf :
  substring_from (lastIndexOf "." "a/b.c/Notes.PDF") (toLowerCase "a/b.c/Notes.PDF")
  = ".pdf"
  /\ substring_from (lastIndexOf "." "noext") (toLowerCase "noext") = "noext".
Proof. split; reflexivity. Qed.

Example trim_blank : trim (String "009"%char (String "010"%char "  ")) = "".
Proof. reflexivity. Qed.

Example trim_no_break_spaces :
  trim (String "160"%char (String "160"%char (String "160"%char ""))) = "".
Proof. reflexivity. Qed.

Example double_slash_found :
  has_double_slash "a//b" = true /\ has_double_slash "a/b/" = false.
Proof. split; reflexivity. Qed.

Example path_segments_of_identifiers :
  path_segments "c1" = ["c1"] /\ path_segments "a/b" = ["a"; "b"]
  /\ path_segments "/a/" = ["a"] /\ path_segments "/" = [].
Proof. repeat split; reflexivity. Qed.

End JsFacts.

(** ** Facts about [onFileUpload] *)
Module UploadFacts.
Import Functions UploadSpec JsFacts.

Lemma add_effects_nil w : add_effects w [] = w.
Proof. destruct w; unfold add_effects; simpl. by rewrite app_nil_r. Qed.

Lemma add_effects_app w l1 l2 :
  add_effects (add_effects w l1) l2 = add_effects w (l1 ++ l2).
Proof. unfold add_effects; simpl. by rewrite app_assoc. Qed.

(** *** Computations that only log *)

Lemma only_logs_ret {A} (a : A) : only_logs (mret a).
Proof. intros w. exists []. by rewrite add_effects_nil. Qed.

Lemma only_logs_return {A} : only_logs (@early_return A).
Proof. intros w. exists []. by rewrite add_effects_nil. Qed.

Lemma only_logs_log lvl msg : only_logs (log lvl msg).
Proof. intros w. by exists [Log lvl msg]. Qed.

Lemma only_logs_bind {A B} (m : M A) (f : A -> M B) :
  only_logs m -> (forall a, only_logs (f a)) -> only_logs (m ≫= f).
Proof.
  intros Hm Hf w. destruct (Hm w) as (l1 & H1 & L1 & T1).
  unfold mbind, M_bind. destruct (m w) as [[a| |e] w1]; simpl in *; subst.
  - destruct (Hf a (add_effects w l1)) as (l2 & H2 & L2 & T2).
    exists (l1 ++ l2). rewrite H2, add_effects_app, forallb_app, L1, L2. done.
  - by exists l1.
  - by destruct (T1 e).
Qed.

Lemma only_logs_when c (m : M unit) : only_logs m -> only_logs (when c m).
Proof. destruct c; simpl; auto using only_logs_ret. Qed.

Lemma only_logs_validate object : only_logs (validate object).
Proof.
  unfold validate.
  destruct (match split "/" <$> object_name object with
            | Some parts => _ | None => _ end) as [userId fileType].
  repeat first [ apply only_logs_bind; [|intros ?] | apply only_logs_when
               | apply only_logs_log | apply only_logs_return
               | apply only_logs_ret | case_match ].
Qed.

(** With the bucket in hand the handler goes on to process the object;
    without it the invocation ends there, with nothing done. *)
Lemma handler_with_bucket env object w :
  object_bucket object <> "" ->
  onFileUpload env object w = process env object w.
Proof.
  intros Hb%String.eqb_neq. unfold onFileUpload, storage_bucket.
  by rewrite Hb.
Qed.

Lemma handler_without_bucket env object w :
  object_bucket object = "" ->
  exists e, onFileUpload env object w = (Threw e, w).
Proof.
  intros Hb. unfold onFileUpload, storage_bucket. rewrite Hb. simpl.
  by eexists.
Qed.

Lemma run_without_bucket env object w :
  object_bucket object = "" -> run env object w = w.
Proof.
  intros Hb. unfold run.
  by destruct (handler_without_bucket env object w Hb) as [e ->].
Qed.

(** A rejected upload ends the invocation with log entries only. *)
Lemma rejected_aborted env object w :
  (validate object w).1 = Returned -> aborted env object w.
Proof.
  intros Hr. destruct (decide (object_bucket object = "")) as [Hb|Hb].
  { unfold aborted. rewrite run_without_bucket by done.
    split; [done|]. exists []. by rewrite app_nil_r. }
  destruct (only_logs_validate object w) as (l & Hw & Hl & _).
  unfold aborted, run. rewrite handler_with_bucket by done.
  unfold process, mbind, M_bind.
  destruct (validate object w) as [[u| |e] w1]; simpl in *; try discriminate.
  subst w1. split; [done|]. by exists l.
Qed.

#[local] Arguments type_allowed : simpl never.
#[local] Arguments includes : simpl never.
#[local] Arguments exceeds : simpl never.
#[local] Arguments fileExtension : simpl never.
#[local] Arguments show : simpl never.
#[local] Arguments split : simpl never.
#[local] Arguments add_cards : simpl never.
#[local] Arguments card_key : simpl never.
#[local] Arguments card_write : simpl never.

(** *** Stepping through a handler body *)

Lemma step_when_false {B} (body : M unit) (k : unit -> M B) w :
  (when false body ≫= k) w = k tt w.
Proof. done. Qed.

Lemma step_when_return {B} lvl msg (k : unit -> M B) w :
  (when true (log lvl msg;; early_return) ≫= k) w
  = (Returned, add_effects w [Log lvl msg]).
Proof. done. Qed.

Lemma step_log_return {A B} lvl msg (k : A -> M B) w :
  ((log lvl msg;; early_return) ≫= k) w
  = (Returned, add_effects w [Log lvl msg]).
Proof. done. Qed.

Lemma step_log {B} lvl msg (k : unit -> M B) w :
  (log lvl msg ≫= k) w = k tt (add_effects w [Log lvl msg]).
Proof. done. Qed.

Lemma step_bind_assoc {A B C} (m : M A) (f : A -> M B) (k : B -> M C) w :
  ((m ≫= f) ≫= k) w = (m ≫= fun a => f a ≫= k) w.
Proof. unfold mbind, M_bind. by destruct (m w) as [[?| |?] ?]. Qed.

Lemma step_ret {A B} (a : A) (k : A -> M B) w : (mret a ≫= k) w = k a w.
Proof. done. Qed.

Lemma step_return {A B} (k : A -> M B) w :
  (early_return ≫= k) w = (Returned, w).
Proof. done. Qed.

Lemma step_throw {A B} e (k : A -> M B) w : (throw e ≫= k) w = (Threw e, w).
Proof. done. Qed.

Ltac msteps :=
  repeat first
    [ rewrite step_ret | rewrite step_return | rewrite step_throw
    | rewrite step_log | rewrite step_when_false | rewrite step_when_return
    | rewrite step_bind_assoc ].

(** Case analysis on the condition of the guard at the head of the body. *)
Ltac head_guard :=
  match goal with
  | |- context [@mbind M M_bind _ _ _ (when ?c _) ?w] =>
      lazymatch c with
      | true => fail
      | false => fail
      | _ => let E := fresh "G" in destruct c eqn:E
      end
  end;
  rewrite ?step_when_false, ?step_when_return.

(** A size field holding the decimal rendering of [n] declares [n]. *)
Lemma decimal_size_declared object n :
  0 <= n -> object_size object = Some (show n) ->
  declared_size object = Some n.
Proof.
  intros Hn Hs. unfold declared_size. rewrite Hs. simpl.
  by apply parseInt_show.
Qed.

Lemma oversized_rejected object w kind n :
  declared_kind object = Some kind ->
  declared_size object = Some n ->
  (kind = "documents" /\ maxDocumentSize < n)
  \/ (kind = "audio" /\ maxAudioSize < n) ->
  (validate object w).1 = Returned.
Proof.
  unfold declared_kind, declared_size.
  destruct object as [[p|] ct [s|] b]; simpl; try discriminate.
  intros Hk Hs Hn. unfold validate. simpl.
  destruct (split "/" p) as [|a [|k [|us [|f rest]]]]; simpl in *; try done.
  simplify_eq. case_bool_decide; simpl; [|done].
  head_guard; [done|]. head_guard; [done|]. rewrite step_log.
  assert (Hx : forall max, max < n -> exceeds (Some s) max = true).
  { intros max Hmax. unfold exceeds. simpl. rewrite Hs. simpl.
    destruct s; [done|]. simpl. by apply Z.ltb_lt. }
  destruct Hn as [[-> Hn]|[-> Hn]]; simpl;
    rewrite !step_bind_assoc, (Hx _ Hn); by rewrite step_when_return.
Qed.

Lemma unadmitted_rejected object w :
  (forall p, object_name object = Some p -> path_admitted p = false) ->
  (validate object w).1 = Returned.
Proof.
  destruct object as [[p|] ct s b]; simpl; intros Hp; [|done].
  specialize (Hp p eq_refl). unfold path_admitted in Hp.
  unfold validate. simpl.
  destruct (split "/" p) as [|a [|k [|us [|f rest]]]]; simpl in *; try done.
  case_bool_decide as Ha; simpl; [|done]. simplify_eq. simpl in Hp.
  head_guard; [done|]. head_guard; [done|]. rewrite step_log.
  apply orb_false_iff in G as [Gu _]. apply negb_false_iff in Gu.
  rewrite Gu, andb_true_r in Hp.
  apply orb_false_iff in Hp as [-> ->]. by rewrite step_log_return.
Qed.

Lemma exceeds_undeclared size max :
  size = None \/ size = Some "" -> exceeds size max = false.
Proof. by intros [-> | ->]. Qed.

Lemma undeclared_size_outcome object w p ct kind :
  object_size object = None \/ object_size object = Some "" ->
  object_name object = Some p ->
  path_admitted p = true ->
  object_contentType object = Some ct -> ct <> "" ->
  declared_kind object = Some kind ->
  if type_and_extension_ok kind ct p
  then exists u, (validate object w).1 = Value u
  else (validate object w).1 = Returned.
Proof.
  unfold declared_kind.
  destruct object as [name type size b]; simpl.
  intros Hsize -> Hp -> Hct Hk. simpl in Hk. unfold path_admitted in Hp.
  assert (Hne : String.eqb p "" = false).
  { apply String.eqb_neq. by intros ->. }
  apply String.eqb_neq in Hct.
  unfold validate, type_and_extension_ok. simpl.
  destruct (split "/" p) as [|a [|k [|us [|f rest]]]]; simpl in *; try done.
  simplify_eq.
  apply andb_true_iff in Hp as [Hp Hu]. apply andb_true_iff in Hp as [Ha Hp].
  apply String.eqb_eq in Ha as ->. rewrite bool_decide_eq_true_2 by done.
  simpl. rewrite Hu, Hne, Hct. simpl.
  rewrite !(exceeds_undeclared size) by done.
  apply orb_true_iff in Hp as [Hk|Hk]; apply String.eqb_eq in Hk as ->; simpl;
    msteps; (destruct (type_allowed _ ct); simpl; msteps; [|done]);
    (destruct (includes _ _); simpl; msteps; [|done]); eauto.
Qed.

(** *** Computations that do not write *)

Lemma no_write_ret {A} (a : A) : no_write (mret a).
Proof. done. Qed.

Lemma no_write_return {A} : no_write (@early_return A).
Proof. done. Qed.

Lemma no_write_throw {A} e : no_write (@throw A e).
Proof. done. Qed.

Lemma no_write_emit e : no_write (emit e).
Proof. done. Qed.

Lemma no_write_await {A} (r : Result A) : no_write (await r).
Proof. by destruct r. Qed.

Lemma no_write_bind {A B} (m : M A) (f : A -> M B) :
  no_write m -> (forall a, no_write (f a)) -> no_write (m ≫= f).
Proof.
  intros Hm Hf w. destruct (Hm w) as [H1 H2]. unfold mbind, M_bind.
  destruct (m w) as [[a| |e] w1]; simpl in *; [|done..].
  destruct (Hf a w1) as [H3 H4]. by rewrite H3, H4.
Qed.

Lemma no_write_try_catch {A} (m : M A) (h : Thrown -> M A) :
  no_write m -> (forall e, no_write (h e)) -> no_write (try_catch m h).
Proof.
  intros Hm Hh w. destruct (Hm w) as [H1 H2]. unfold try_catch.
  destruct (m w) as [[a| |e] w1]; simpl in *; [done..|].
  destruct (Hh e w1) as [H3 H4]. by rewrite H3, H4.
Qed.

Lemma no_write_when c (m : M unit) : no_write m -> no_write (when c m).
Proof. destruct c; simpl; auto using no_write_ret. Qed.

Ltac no_write_tac :=
  repeat first
    [ apply no_write_bind; [|intros ?] | apply no_write_try_catch; [|intros ?]
    | apply no_write_when | apply no_write_emit | apply no_write_await
    | apply no_write_return | apply no_write_throw | apply no_write_ret
    | case_match ].

Lemma no_write_request env u : no_write (request_flashcards env u).
Proof. unfold request_flashcards, file_download, post, log. no_write_tac. Qed.

(** *** The stages of the handler *)

Lemma validated_world object w u w1 :
  validate object w = (Value u, w1) ->
  exists logs, w1 = add_effects w logs /\ forallb is_log logs = true.
Proof.
  intros Hv. destruct (only_logs_validate object w) as (l & Hw & Hl & _).
  rewrite Hv in Hw. simpl in Hw. eauto.
Qed.

Lemma run_received env object w u aiData w2 :
  received env object w u aiData w2 ->
  db w2 = db w /\ db_writes w2 = db_writes w
  /\ onFileUpload env object w
     = try_catch (persist env u (Some aiData)) (record_failure env u) w2.
Proof.
  intros (Hb & w1 & Hv & Hr).
  destruct (validated_world _ _ _ _ Hv) as (l & -> & _).
  destruct (no_write_request env u (add_effects w l)) as [Hd Hn].
  rewrite Hr in Hd, Hn. simpl in Hd, Hn. split; [done|]. split; [done|].
  rewrite handler_with_bucket by done.
  unfold process, mbind at 1, M_bind at 1. rewrite Hv.
  unfold try_catch, mbind, M_bind. by rewrite Hr.
Qed.


Lemma run_request_threw env object w u w1 e w2 :
  object_bucket object <> "" ->
  validate object w = (Value u, w1) ->
  request_flashcards env u w1 = (Threw e, w2) ->
  db w2 = db w /\ db_writes w2 = db_writes w
  /\ onFileUpload env object w = record_failure env u e w2.
Proof.
  intros Hb Hv Hr. destruct (validated_world _ _ _ _ Hv) as (l & -> & _).
  destruct (no_write_request env u (add_effects w l)) as [Hd Hn].
  rewrite Hr in Hd, Hn. simpl in Hd, Hn. split; [done|]. split; [done|].
  rewrite handler_with_bucket by done.
  unfold process, mbind at 1, M_bind at 1. rewrite Hv.
  unfold try_catch, mbind, M_bind. by rewrite Hr.
Qed.

Lemma bind_value {A B} (m : M A) (k : A -> M B) w a w' :
  m w = (Value a, w') -> (m ≫= k) w = k a w'.
Proof. intros H. unfold mbind, M_bind. by rewrite H. Qed.


Lemma file_download_resolved env b p fileBuffer w :
  download env b p = Resolved fileBuffer ->
  file_download env b p w = (Value fileBuffer, add_effects w [Download b p]).
Proof. intros H. unfold file_download, mbind, M_bind. simpl. by rewrite H. Qed.


(** *** The response check *)

Lemma get_defined v k x k' : get v k = Some x -> exists y, get v k' = Some y.
Proof. destruct v; simpl; eauto; discriminate. Qed.

Lemma get_truthy v k : truthy v = true -> exists y, get v k = Some y.
Proof. destruct v; simpl; eauto; discriminate. Qed.

Lemma prop_value v k x w : get v k = Some x -> prop v k w = (Value x, w).
Proof. intros H. unfold prop. by rewrite H. Qed.


Lemma persist_empty env u aiData w :
  successful aiData [] ->
  persist env u (Some aiData) w
  = (Returned, add_effects w [Log Info "Received response from AI service";
                              Log Warn "AI service returned no flashcards"]).
Proof.
  intros (success & Hs & Ht & Hf). unfold persist. msteps.
  erewrite bind_value by (by apply prop_value).
  erewrite bind_value by (by apply prop_value).
  rewrite Ht. simpl. msteps. by rewrite add_effects_app.
Qed.

(** *** The successful path *)

Example doc_of_identifiers w :
  doc (JStr "c1") w = (Value "c1", w)
  /\ doc (JStr "a/b/c") w = (Value "a/b/c", w)
  /\ doc (JStr "/c1/") w = (Value "c1", w)
  /\ (doc (JStr "a/b") w).1 <> Value "a/b"
  /\ (exists e, doc (JStr "a/b") w = (Threw e, w))
  /\ (exists e, doc (JStr "a//b/c") w = (Threw e, w))
  /\ (exists e, doc (JStr "") w = (Threw e, w))
  /\ (exists e, doc (JNum 7) w = (Threw e, w)).
Proof. repeat split; try done; by eexists. Qed.

(** [doc] of an identifier that is not empty and holds no slash is the
    document of that name. *)
Lemma doc_plain s w :
  s <> "" -> occurs "/" s = false -> doc (JStr s) w = (Value s, w).
Proof.
  intros Hne Hs. unfold doc.
  rewrite (proj2 (String.eqb_neq s "")) by done.
  rewrite no_slash_no_double_slash, path_segments_single by done.
  reflexivity.
Qed.

(** The identifier under which a well-formed card is written is a string
    that is not empty and holds no slash. *)
Lemma well_formed_key index fields :
  well_formed (JObj fields) = true ->
  exists s, or_else (assoc "id" fields)
              (JStr ("card_" +:+ show (Z.of_nat index + 1))) = JStr s
            /\ s <> "" /\ occurs "/" s = false.
Proof.
  assert (occurs "/" ("card_" +:+ show (Z.of_nat index + 1)) = false) as Hd.
  { rewrite occurs_app, show_no_slash by lia. reflexivity. }
  simpl. unfold or_else. intros Hwf.
  destruct (assoc "id" fields) as [| |b|n|s|?|?]; simpl in *; try done;
    try (eexists; split; [reflexivity|split; [done|exact Hd]]).
  - destruct b; [done|]. eexists. split; [reflexivity|]. by split.
  - destruct (n =? 0); [|done]. eexists. split; [reflexivity|]. by split.
  - destruct (String.eqb s "") eqn:He; simpl.
    + eexists. split; [reflexivity|]. by split.
    + exists s. split; [done|]. apply String.eqb_neq in He.
      split; [done|]. by apply negb_true_iff.
Qed.

Lemma add_card_well_formed deckId card index batch w :
  well_formed card = true ->
  add_card deckId card index batch w
  = (Value (batch ++ [card_write deckId index card]), w).
Proof.
  destruct card as [| | | | |?|fields]; try done.
  intros Hwf. destruct (well_formed_key index fields Hwf) as (s & Hid & Hne & Hs).
  unfold add_card, card_write, prop. simpl. msteps.
  unfold make_cardData. simpl. rewrite Hid.
  erewrite bind_value by (by apply doc_plain). by msteps.
Qed.

Lemma add_cards_well_formed deckId cards index batch w :
  forallb well_formed cards = true ->
  add_cards deckId cards index batch w
  = (Value (batch ++ imap (fun i => card_write deckId (index + i)) cards), w).
Proof.
  revert index batch.
  induction cards as [|card cards IH]; intros index batch Hwf;
    unfold add_cards; fold add_cards; simpl.
  - by rewrite app_nil_r.
  - apply andb_true_iff in Hwf as [Hc Hwf].
    erewrite bind_value by (by apply add_card_well_formed).
    rewrite IH by done. rewrite <- app_assoc. simpl.
    rewrite Nat.add_0_r. do 4 f_equal. apply imap_ext. intros i x _. simpl. f_equal. lia.
Qed.

Lemma deck_filename_value env p d l c n :
  exists name c',
    deck_filename env p {| db := d; effects := l; clock_reads := c; db_writes := n |}
    = (Value name, {| db := d; effects := l; clock_reads := c'; db_writes := n |}).
Proof. unfold deck_filename. case_match; simpl; eauto. Qed.

Lemma write_applied env e f d l c n :
  write_fault env n = None ->
  write env e f {| db := d; effects := l; clock_reads := c; db_writes := n |}
  = (Value tt, {| db := f d; effects := l ++ [e]; clock_reads := c;
                  db_writes := S n |}).
Proof. intros H. unfold write. simpl. by rewrite H. Qed.

Lemma persist_success env u aiData cards w :
  successful aiData cards -> cards <> [] ->
  forallb well_formed cards = true -> writes_ok env w ->
  exists deckId deckData msg n,
    persist env u (Some aiData) w
    = (Value tt,
       {| db := apply_batch (imap (card_write deckId) cards)
                  (<[DeckRef deckId := DeckData deckData]> (db w));
          effects := effects w ++
            [Log Info "Received response from AI service";
             DocSet (DeckRef deckId) (DeckData deckData);
             BatchCommit (imap (card_write deckId) cards);
             Log Info msg];
          clock_reads := n; db_writes := S (S (db_writes w)) |})
    /\ status deckData = "completed"
    /\ total_cards deckData = length cards.
Proof.
  intros (success & Hs & Ht & Hf) Hne Hwf [Hw1 Hw2].
  destruct w as [d l c n]. simpl in *.
  destruct (get_defined _ _ _ "model" Hs) as [model Hm].
  destruct (get_defined _ _ _ "transcription" Hs) as [tr Htr].
  destruct (get_defined _ _ _ "audio_info" Hs) as [ai Hai].
  unfold persist. msteps.
  erewrite bind_value by (by apply prop_value).
  erewrite bind_value by (by apply prop_value).
  rewrite Ht. simpl. msteps.
  assert ((length cards =? 0)%nat = false) as -> by by destruct cards.
  msteps.
  destruct (deck_filename_value env (filePath u) d
              (l ++ [Log Info "Received response from AI service"]) c n)
    as (name & c' & Hname).
  unfold add_effects. simpl.
  erewrite bind_value by exact Hname.
  erewrite bind_value by reflexivity. simpl.
  erewrite bind_value by (by apply prop_value).
  erewrite bind_value by (by apply prop_value).
  destruct (String.eqb (fileType u) "audio" && truthy tr) eqn:Haud.
  - apply andb_true_iff in Haud as [_ Htru].
    destruct (get_truthy tr "text" Htru) as [? ?].
    destruct (get_truthy tr "language" Htru) as [? ?].
    destruct (get_truthy tr "duration" Htru) as [? ?].
    destruct (get_truthy tr "segments" Htru) as [? ?].
    do 5 (rewrite ?step_bind_assoc;
          erewrite bind_value by (by apply prop_value)).
    msteps. unfold doc_set.
    erewrite bind_value by (by apply write_applied).
    erewrite bind_value by (by apply add_cards_well_formed).
    unfold batch_commit.
    erewrite bind_value by (by apply write_applied).
    unfold log, emit. simpl. rewrite <- !app_assoc. simpl.
    eexists _, _, _, _. split; [reflexivity|]. done.
  - msteps. unfold doc_set.
    erewrite bind_value by (by apply write_applied).
    erewrite bind_value by (by apply add_cards_well_formed).
    unfold batch_commit.
    erewrite bind_value by (by apply write_applied).
    unfold log, emit. simpl. rewrite <- !app_assoc. simpl.
    eexists _, _, _, _. split; [reflexivity|]. done.
Qed.

(** *** The failure record *)


(** *** Validation *)

(** C3, as the handler has it: an object whose path does not split into at
    least four segments, the first being uploads, the second documents or
    audio and the third not empty, ends the invocation with log entries
    only; no Deck and no Flashcard record is created. *)
Theorem unadmitted_path_aborts env object w :
  (forall p, object_name object = Some p -> path_admitted p = false) ->
  aborted env object w.
Proof. intros H. by apply rejected_aborted, unadmitted_rejected. Qed.

Lemma unadmitted_path_aborts_witness :
  aborted (answering two_cards)
          (sample_object "uploads/documents/notes.txt" (Some "58")) empty_world.
Proof.
  apply unadmitted_path_aborts. intros p [= <-]. reflexivity.
Defined.

(** C3 as stated fails: a path of five segments does not match the
    four-segment shape, yet its upload is processed and a Deck is stored. *)
Lemma five_segment_path_is_processed :
  path_matches "uploads/documents/u1/sub/notes.txt" = false
  /\ ~ creates_no_record (answering two_cards) nested_upload empty_world.
Proof.
  split; [reflexivity|]. unfold creates_no_record. intros H.
  apply (f_equal (fun fs => fs !! DeckRef "u1_notes_1700000000000")) in H.
  vm_compute in H. discriminate.
Qed.

(** C4: a document upload that declares more than 10 MiB, and an audio
    upload that declares more than 50 MiB, ends the invocation with log
    entries only: no request is made to the AI service and no record is
    persisted. *)
Theorem oversized_upload_aborts env object w kind n :
  declared_kind object = Some kind ->
  declared_size object = Some n ->
  (kind = "documents" /\ maxDocumentSize < n)
  \/ (kind = "audio" /\ maxAudioSize < n) ->
  aborted env object w.
Proof. intros Hk Hs Hn. by eapply rejected_aborted, oversized_rejected. Qed.

Lemma oversized_upload_aborts_witness :
  aborted (answering two_cards)
          (sample_object "uploads/documents/u1/notes.txt" (Some "10485761"))
          empty_world.
Proof.
  apply (oversized_upload_aborts _ _ _ "documents" 10485761).
  - reflexivity.
  - reflexivity.
  - left. split; [reflexivity|]. unfold maxDocumentSize. lia.
Defined.

(** C10: when the size field of the event is absent or empty, the size
    check fails for neither kind, and whether the upload passes validation
    is decided by the content-type and extension checks alone. *)
Theorem undeclared_size_is_not_checked object w p ct kind :
  object_size object = None \/ object_size object = Some "" ->
  object_name object = Some p ->
  path_admitted p = true ->
  object_contentType object = Some ct -> ct <> "" ->
  declared_kind object = Some kind ->
  exceeds (object_size object) maxDocumentSize = false
  /\ exceeds (object_size object) maxAudioSize = false
  /\ if type_and_extension_ok kind ct p
     then exists u, (validate object w).1 = Value u
     else (validate object w).1 = Returned.
Proof.
  intros Hs Hn Hp Hc Hne Hk.
  split; [by apply exceeds_undeclared|]. split; [by apply exceeds_undeclared|].
  by apply undeclared_size_outcome.
Qed.

Lemma undeclared_size_is_not_checked_witness :
  exceeds None maxDocumentSize = false
  /\ exceeds None maxAudioSize = false
  /\ exists u,
      (validate (sample_object "uploads/documents/u1/notes.txt" None)
                empty_world).1 = Value u.
Proof.
  apply (undeclared_size_is_not_checked
           (sample_object "uploads/documents/u1/notes.txt" None) empty_world
           "uploads/documents/u1/notes.txt" "text/plain" "documents");
    try reflexivity; [by left | done].
Defined.

(** *** Failures after validation *)

(** C5: when the AI service answers a validated upload with a successful
    body whose flashcard list is empty, the handler logs a warning and
    returns; no Deck and no Flashcard record is created. *)
Theorem empty_flashcard_list_creates_nothing env object w u aiData w2 :
  received env object w u aiData w2 ->
  successful aiData [] ->
  db (run env object w) = db w
  /\ effects (run env object w)
     = effects w2 ++ [Log Info "Received response from AI service";
                      Log Warn "AI service returned no flashcards"].
Proof.
  intros Hr Hs. destruct (run_received _ _ _ _ _ _ Hr) as (Hd & _ & Hrun).
  unfold run. rewrite Hrun. unfold try_catch.
  rewrite (persist_empty _ _ _ _ Hs). simpl. by rewrite Hd.
Qed.

Lemma empty_flashcard_list_creates_nothing_witness :
  db (run (answering []) notes_upload empty_world) = ∅.
Proof.
  eapply (empty_flashcard_list_creates_nothing
            (answering []) notes_upload empty_world notes_u (body_of [])
            (notes_answered (answering []))).
  - split; [discriminate|]. exists notes_validated. split; reflexivity.
  - exists (JBool true). by repeat split.
Defined.




(** *** The successful run *)

Lemma run_success env object w u aiData w2 cards :
  received env object w u aiData w2 ->
  successful aiData cards -> cards <> [] ->
  forallb well_formed cards = true -> writes_ok env w2 ->
  exists deckId deckData msg,
    db (run env object w)
    = apply_batch (imap (card_write deckId) cards)
        (<[DeckRef deckId := DeckData deckData]> (db w))
    /\ effects (run env object w)
       = effects w2 ++
           [Log Info "Received response from AI service";
            DocSet (DeckRef deckId) (DeckData deckData);
            BatchCommit (imap (card_write deckId) cards);
            Log Info msg]
    /\ status deckData = "completed"
    /\ total_cards deckData = length cards.
Proof.
  intros Hr Hs Hne Hwf Hw.
  destruct (run_received _ _ _ _ _ _ Hr) as (Hd & _ & Hrun).
  destruct (persist_success env u aiData cards w2 Hs Hne Hwf Hw)
    as (deckId & deckData & msg & n & Hp & Hst & Htc).
  exists deckId, deckData, msg. unfold run. rewrite Hrun. unfold try_catch.
  rewrite Hp. simpl. by rewrite Hd.
Qed.

Lemma card_write_object deckId index fields :
  well_formed (JObj fields) = true ->
  exists cardId,
    card_write deckId index (JObj fields)
    = (CardRef deckId cardId,
       CardData (make_cardData (assoc "id" fields) (assoc "type" fields)
                   (assoc "question" fields) (assoc "answer" fields)
                   (assoc "source_text" fields) (assoc "difficulty" fields)
                   index))
    /\ or_else (assoc "id" fields)
               (JStr ("card_" +:+ show (Z.of_nat index + 1))) = JStr cardId.
Proof.
  unfold well_formed, card_write, make_cardData, or_else. simpl.
  destruct (assoc "id" fields) eqn:E; simpl; try done; eauto;
    match goal with
    | |- context [if ?c then _ else _] => destruct c; try done; eauto
    end.
Qed.

Lemma card_write_ref deckId index card :
  well_formed card = true ->
  card_key index card = JStr (match (card_write deckId index card).1 with
                              | CardRef _ cardId => cardId
                              | DeckRef _ => ""
                              end)
  /\ exists cardId, (card_write deckId index card).1 = CardRef deckId cardId.
Proof.
  destruct card as [| | | | |?|fields]; try done. intros Hwf.
  destruct (card_write_object deckId index fields Hwf) as (cardId & -> & Hk).
  unfold card_key. simpl. rewrite Hk. eauto.
Qed.

Lemma forallb_lookup {A} (f : A -> bool) l i x :
  forallb f l = true -> l !! i = Some x -> f x = true.
Proof.
  intros Hf Hl. apply forallb_forall with (x := x) in Hf; [done|].
  apply list_elem_of_In. by eapply list_elem_of_lookup_2.
Qed.

Lemma batch_refs_distinct deckId cards :
  forallb well_formed cards = true ->
  NoDup (imap card_key cards) ->
  NoDup (imap (card_write deckId) cards).*1.
Proof.
  intros Hwf Hnd. apply NoDup_alt. intros i j r Hi Hj.
  rewrite list_lookup_fmap, list_lookup_imap in Hi, Hj.
  destruct (cards !! i) as [ci|] eqn:Hci; [|done].
  destruct (cards !! j) as [cj|] eqn:Hcj; [|done].
  change (Some (card_write deckId i ci).1 = Some r) in Hi.
  change (Some (card_write deckId j cj).1 = Some r) in Hj.
  apply (inj Some) in Hi, Hj.
  destruct (card_write_ref deckId i ci) as [Hki _]; [by eapply forallb_lookup|].
  destruct (card_write_ref deckId j cj) as [Hkj _]; [by eapply forallb_lookup|].
  rewrite Hi in Hki. rewrite Hj in Hkj.
  eapply NoDup_lookup; [exact Hnd| |]; rewrite list_lookup_imap.
  - rewrite Hci. simpl. by rewrite Hki.
  - rewrite Hcj. simpl. by rewrite Hkj.
Qed.

(** A list with the same element at two positions has fewer distinct
    elements than entries. *)
Lemma distinct_at_most_length (l : list DocRef) :
  (size (list_to_set l : gset DocRef) <= length l)%nat.
Proof.
  induction l as [|x l IH].
  - change (list_to_set [] : gset DocRef) with (∅ : gset DocRef).
    by rewrite size_empty.
  - rewrite list_to_set_cons, size_union_alt, size_singleton. simpl length.
    assert ((list_to_set l ∖ {[x]} : gset DocRef) ⊆ list_to_set l) as Hsub
      by by apply subseteq_difference_l.
    apply subseteq_size in Hsub. lia.
Qed.

Lemma repeated_entry_fewer_distinct (l : list DocRef) i j r :
  i <> j -> l !! i = Some r -> l !! j = Some r ->
  (size (list_to_set l : gset DocRef) < length l)%nat.
Proof.
  assert (Hin : forall (l : list DocRef) x, x ∈ l ->
             (size (list_to_set (x :: l) : gset DocRef) <= length l)%nat).
  { intros l0 x Hx. rewrite list_to_set_cons.
    assert ({[x]} ∪ list_to_set l0 = (list_to_set l0 : gset DocRef)) as ->
      by by apply subseteq_union_1_L, singleton_subseteq_l, elem_of_list_to_set.
    apply distinct_at_most_length. }
  revert i j. induction l as [|x l IH]; intros i j Hij Hi Hj; [done|].
  destruct i as [|i], j as [|j]; try done.
  - injection Hi as ->. simpl in Hj.
    apply list_elem_of_lookup_2, Hin in Hj. simpl length. lia.
  - injection Hj as ->. simpl in Hi.
    apply list_elem_of_lookup_2, Hin in Hi. simpl length. lia.
  - assert (i <> j) as Hij' by congruence.
    specialize (IH i j Hij' Hi Hj).
    rewrite list_to_set_cons, size_union_alt, size_singleton. simpl length.
    assert ((list_to_set l ∖ {[x]} : gset DocRef) ⊆ list_to_set l) as Hsub
      by by apply subseteq_difference_l.
    apply subseteq_size in Hsub. lia.
Qed.

Lemma apply_batch_cons r d batch fs :
  apply_batch ((r, d) :: batch) fs = apply_batch batch (<[r := d]> fs).
Proof. done. Qed.

Lemma apply_batch_lookup_other batch (fs : Firestore) r :
  r ∉ batch.*1 -> apply_batch batch fs !! r = fs !! r.
Proof.
  revert fs. induction batch as [|[r0 d0] batch IH]; intros fs Hr; [done|].
  rewrite apply_batch_cons. rewrite fmap_cons in Hr.
  apply not_elem_of_cons in Hr as [Hne Hr].
  rewrite IH by done. by rewrite lookup_insert_ne.
Qed.

Lemma apply_batch_lookup_written batch (fs : Firestore) r d :
  NoDup batch.*1 -> (r, d) ∈ batch -> apply_batch batch fs !! r = Some d.
Proof.
  revert fs. induction batch as [|[r0 d0] batch IH]; intros fs Hnd Hin.
  - by apply elem_of_nil in Hin.
  - rewrite apply_batch_cons. rewrite fmap_cons in Hnd.
    apply NoDup_cons in Hnd as [Hnotin Hnd].
    apply elem_of_cons in Hin as [[= -> ->] | Hin].
    + rewrite apply_batch_lookup_other by done. apply lookup_insert_eq.
    + by apply IH.
Qed.

(** *** Persistence *)

(** C1, as the handler has it: for a validated upload answered with a
    successful body of K >= 1 well-formed flashcards with pairwise distinct
    identifiers, and with no write rejected, the handler first sets exactly
    one Deck document (completed, total_cards = K) and then commits one
    batch holding exactly the K card writes; the Deck write is a separate
    operation that precedes the batch. *)
Theorem deck_write_precedes_card_batch env object w u aiData w2 cards :
  received env object w u aiData w2 ->
  successful aiData cards -> cards <> [] ->
  forallb well_formed cards = true ->
  NoDup (imap card_key cards) ->
  writes_ok env w2 ->
  deck_then_card_batch env object w w2 (length cards).
Proof.
  intros Hr Hs Hne Hwf Hnd Hw.
  destruct (run_success _ _ _ _ _ _ _ Hr Hs Hne Hwf Hw)
    as (deckId & deckData & msg & Hdb & Heff & Hst & Htc).
  pose proof (batch_refs_distinct deckId cards Hwf Hnd) as Hrefs.
  assert (Hcard : forall r d, (r, d) ∈ imap (card_write deckId) cards ->
            exists cardId c, r = CardRef deckId cardId /\ d = CardData c).
  { intros r d (i & card & Heq & Hi)%elem_of_lookup_imap_1.
    destruct (card_write_ref deckId i card) as [_ [cardId Hid]];
      [by eapply forallb_lookup|].
    rewrite <- Heq in Hid. simpl in Hid. subst r. exists cardId.
    unfold card_write in Heq. injection Heq as _ ->. eauto. }
  exists deckId, deckData, (imap (card_write deckId) cards), msg.
  repeat split; try done.
  - apply length_imap.
  - rewrite Hdb, apply_batch_lookup_other; [apply lookup_insert_eq|].
    intros ((r & d) & Heq & Hin)%list_elem_of_fmap. simpl in Heq. subst r.
    destruct (Hcard _ _ Hin) as (? & ? & ? & _). done.
  - intros r d Hin. rewrite Hdb. by apply apply_batch_lookup_written.
  - intros r Hr1 Hr2. rewrite Hdb, apply_batch_lookup_other by done.
    by rewrite lookup_insert_ne.
Qed.

Lemma deck_write_precedes_card_batch_witness :
  deck_then_card_batch (answering two_cards) notes_upload empty_world
    (notes_answered (answering two_cards)) 2.
Proof.
  apply (deck_write_precedes_card_batch (answering two_cards) notes_upload
           empty_world notes_u (body_of two_cards)
           (notes_answered (answering two_cards)) two_cards).
  - split; [discriminate|]. exists notes_validated. split; reflexivity.
  - exists (JBool true). by repeat split.
  - done.
  - reflexivity.
  - vm_compute. apply NoDup_cons. split.
    + by intros [=]%list_elem_of_singleton.
    + apply NoDup_singleton.
  - split; reflexivity.
Defined.

(** C1 as stated fails: on a validated upload answered with two well-formed
    flashcards the writes are not the content of one batch commit; the Deck
    document is set by a write of its own before the batch. *)
Lemma deck_write_is_outside_the_batch :
  received (answering two_cards) notes_upload empty_world notes_u
           (body_of two_cards) (notes_answered (answering two_cards))
  /\ successful (body_of two_cards) two_cards
  /\ forallb well_formed two_cards = true
  /\ ~ persisted_in_one_commit (answering two_cards) notes_upload empty_world 2.
Proof.
  split; [split; [discriminate|]; exists notes_validated; split; reflexivity|].
  split; [exists (JBool true); by repeat split|].
  split; [reflexivity|].
  intros (batch & deckId & d & Hwrites & _). vm_compute in Hwrites.
  discriminate.
Qed.

(** C6: in a run that reaches persistence with well-formed flashcards, the
    batch holds one write per flashcard, and the record written for the
    flashcard at position n (index n - 1) has each missing field replaced by
    its fixed default: type qa, difficulty medium, the placeholder question,
    answer and source text, and the identifier card_n; a field that is
    present is kept.  Missing fields never prevent the commit. *)
Theorem missing_fields_get_defaults env object w u aiData w2 cards :
  received env object w u aiData w2 ->
  successful aiData cards -> cards <> [] ->
  forallb well_formed cards = true ->
  writes_ok env w2 ->
  cards_written_with_defaults env object w cards.
Proof.
  intros Hr Hs Hne Hwf Hw.
  destruct (run_success _ _ _ _ _ _ _ Hr Hs Hne Hwf Hw)
    as (deckId & deckData & msg & Hdb & Heff & Hst & Htc).
  exists deckId, deckData, (imap (card_write deckId) cards).
  split; [rewrite Heff; set_solver|]. split; [done|].
  split; [apply length_imap|].
  intros index fields Hl.
  destruct (card_write_object deckId index fields) as (cardId & Hcw & Hid);
    [by eapply forallb_lookup|].
  eexists cardId, _. rewrite list_lookup_imap, Hl. simpl. rewrite Hcw.
  split; [reflexivity|]. split; [exact Hid|].
  unfold defaults_filled, fills, make_cardData, or_else. simpl.
  repeat split; by case_match.
Qed.

Lemma missing_fields_get_defaults_witness :
  cards_written_with_defaults (answering two_cards) notes_upload empty_world
    two_cards.
Proof.
  apply (missing_fields_get_defaults (answering two_cards) notes_upload
           empty_world notes_u (body_of two_cards)
           (notes_answered (answering two_cards)) two_cards).
  - split; [discriminate|]. exists notes_validated. split; reflexivity.
  - exists (JBool true). by repeat split.
  - done.
  - reflexivity.
  - split; reflexivity.
Defined.

(** C9, as the handler has it: when two well-formed flashcards of a
    successful response carry the same identifier, a string that is not
    empty, and no write is rejected, the batch writes both to the same
    card document, so the batch addresses fewer distinct documents than
    the flashcard count stored in the Deck's total_cards. *)
Theorem shared_id_shares_document env object w u aiData w2 cards i j fi fj s :
  received env object w u aiData w2 ->
  successful aiData cards ->
  forallb well_formed cards = true ->
  writes_ok env w2 ->
  i <> j ->
  cards !! i = Some (JObj fi) -> cards !! j = Some (JObj fj) ->
  assoc "id" fi = JStr s -> assoc "id" fj = JStr s -> s <> "" ->
  cards_share_document env object w i j s.
Proof.
  intros Hr Hs Hwf Hw Hij Hi Hj Hfi Hfj Hne.
  assert (cards <> []) as Hcards by (by intros ->).
  destruct (run_success _ _ _ _ _ _ _ Hr Hs Hcards Hwf Hw)
    as (deckId & deckData & msg & Hdb & Heff & Hst & Htc).
  assert (Hkey : forall index,
            or_else (JStr s) (JStr ("card_" +:+ show (Z.of_nat index + 1)))
            = JStr s).
  { intros index. unfold or_else. simpl.
    by apply String.eqb_neq in Hne as ->. }
  destruct (card_write_object deckId i fi) as (idi & Hcwi & Hidi);
    [by eapply forallb_lookup|].
  destruct (card_write_object deckId j fj) as (idj & Hcwj & Hidj);
    [by eapply forallb_lookup|].
  rewrite Hfi, Hkey in Hidi. rewrite Hfj, Hkey in Hidj.
  injection Hidi as <-. injection Hidj as <-.
  assert (Bi : imap (card_write deckId) cards !! i
               = Some (card_write deckId i (JObj fi)))
    by (by rewrite list_lookup_imap, Hi).
  assert (Bj : imap (card_write deckId) cards !! j
               = Some (card_write deckId j (JObj fj)))
    by (by rewrite list_lookup_imap, Hj).
  rewrite Hcwi in Bi. rewrite Hcwj in Bj.
  eexists deckId, deckData, (imap (card_write deckId) cards), _, _.
  split; [rewrite Heff; set_solver|]. split; [rewrite Heff; set_solver|].
  split; [done|]. split; [exact Bi|]. split; [exact Bj|].
  rewrite Htc, <- (length_imap (card_write deckId) cards), <- (length_fmap fst).
  apply (repeated_entry_fewer_distinct _ i j (CardRef deckId s)); [done|..];
    rewrite list_lookup_fmap; [by rewrite Bi | by rewrite Bj].
Qed.

Lemma shared_id_shares_document_witness :
  cards_share_document (answering twin_cards) notes_upload empty_world 0 1 "c1".
Proof.
  apply (shared_id_shares_document (answering twin_cards) notes_upload
           empty_world notes_u (body_of twin_cards)
           (notes_answered (answering twin_cards)) twin_cards 0 1
           [("id", JStr "c1"); ("question", JStr "Q1"); ("answer", JStr "A1")]
           [("id", JStr "c1"); ("question", JStr "Q2"); ("answer", JStr "A2")]
           "c1"); try reflexivity; try done.
  - split; [discriminate|]. exists notes_validated. split; reflexivity.
  - exists (JBool true). by repeat split.
Defined.

(** C9 as stated fails for two flashcards that carry the same empty id:
    each is written under its positional identifier, and the batch
    addresses as many documents as the Deck's total_cards says. *)
Lemma same_empty_id_gives_two_documents :
  received (answering blank_twins) notes_upload empty_world notes_u
           (body_of blank_twins) (notes_answered (answering blank_twins))
  /\ successful (body_of blank_twins) blank_twins
  /\ carry_same_id blank_twins 0 1
  /\ ~ fewer_documents_than_cards (answering blank_twins) notes_upload
        empty_world.
Proof.
  split; [split; [discriminate|]; exists notes_validated; split; reflexivity|].
  split; [exists (JBool true); by repeat split|].
  split; [eexists _, _, (JStr ""); by repeat split|].
  intros (deckId & deckData & batch & Hwrites & Hlt).
  vm_compute in Hwrites. injection Hwrites as <- <- <-.
  vm_compute in Hlt. lia.
Qed.

End UploadFacts.

(** ** Facts about [handleExport] *)
Module ExportFacts.
Import DeckPage ExportSpec JsFacts.

Lemma selected_kept (selectedCards : gset string) card rest :
  id card ∈ selectedCards ->
  selectedCardData (card :: rest) selectedCards
  = card :: selectedCardData rest selectedCards.
Proof.
  intros Hc. unfold selectedCardData. simpl.
  by rewrite bool_decide_eq_true_2.
Qed.

Lemma unselected_dropped (selectedCards : gset string) cards rest :
  (forall c, c ∈ cards -> id c ∉ selectedCards) ->
  selectedCardData (cards ++ rest) selectedCards
  = selectedCardData rest selectedCards.
Proof.
  unfold selectedCardData. induction cards as [|c cards IH]; [done|].
  intros Hs. simpl. rewrite bool_decide_eq_false_2.
  - apply IH. intros c' Hc'. apply Hs. by right.
  - apply Hs. by left.
Qed.

(** The name of the downloaded file: the title of the deck, or flashcards
    when the deck has none, and the extension. *)
Lemma title_or_flashcards deck_title extension :
  or_default deck_title "flashcards" +:+ "." +:+ extension
  = match deck_title with
    | Some title => if String.eqb title "" then "flashcards" else title
    | None => "flashcards"
    end +:+ String "." extension.
Proof.
  unfold or_default. destruct deck_title as [title|]; [|done]. simpl.
  by destruct (String.eqb title "").
Qed.

Section Formats.
Variable exportToAnki : list Flashcard -> string -> bool.
Variable JSON_stringify
  : option string -> nat -> string -> list Flashcard -> string.
Variable toISOString_now : string.

(** C7: the general CSV export of a selection that holds a card of the
    deck downloads the header Front,Back,Type,Difficulty and then, each on
    a line of its own, one row for every card of the deck whose identifier
    is selected, in the order of the deck: the question and the answer
    with every double quote doubled, the type, and the difficulty or
    medium where the card has none, each of the four between double quotes
    and separated by commas.  The card of the example, returned by the AI
    service with a question and an answer only, is stored by the handler
    with type qa and difficulty medium, and the export of the card the
    page holds for it has the row of the specification. *)
Theorem csv_export_rows deck_title cards selectedCards :
  (exists card, card ∈ cards /\ id card ∈ selectedCards) ->
  handleExport exportToAnki JSON_stringify toISOString_now
    deck_title cards selectedCards "csv"
  = [SetExporting true;
     DownloadBlob
       ("Front,Back,Type,Difficulty" +:+
        String "010"%char
          (join (String "010"%char "")
             ((fun card =>
                 String "034"%char (replace_quotes (question card) +:+
                 String "034"%char ("," +:+
                 String "034"%char (replace_quotes (answer card) +:+
                 String "034"%char ("," +:+
                 String "034"%char (type card +:+
                 String "034"%char ("," +:+
                 String "034"%char
                   (match difficulty card with
                    | Some d => if String.eqb d "" then "medium" else d
                    | None => "medium"
                    end +:+
                 String "034"%char ""))))))))
              <$> List.filter
                    (fun card => bool_decide (id card ∈ selectedCards))
                    cards)))
       "text/csv"
       (match deck_title with
        | Some title => if String.eqb title "" then "flashcards" else title
        | None => "flashcards"
        end +:+ ".csv");
     SetExporting false]
  /\ (forall deckId w,
        Functions.add_card deckId example_response_card 0 [] w
        = (Functions.Value
             [(Functions.CardRef deckId "card_1",
               Functions.CardData example_stored_card)], w))
  /\ forall created_at, exists card,
       read_card example_stored_card created_at = Some card
       /\ type card = "qa" /\ difficulty card = Some "medium"
       /\ handleExport exportToAnki JSON_stringify toISOString_now
            deck_title [card] {[ id card ]} "csv"
          = [SetExporting true;
             DownloadBlob
               ("Front,Back,Type,Difficulty" +:+
                String "010"%char
                  (String "034"%char ("Q1" +:+
                   String "034"%char (String "034"%char ("x" +:+
                   String "034"%char ("," +:+
                   String "034"%char ("A1" +:+
                   String "034"%char ("," +:+
                   String "034"%char ("qa" +:+
                   String "034"%char ("," +:+
                   String "034"%char ("medium" +:+
                   String "034"%char "")))))))))))
               "text/csv"
               (match deck_title with
        | Some title => if String.eqb title "" then "flashcards" else title
        | None => "flashcards"
        end +:+ ".csv");
             SetExporting false].
Proof.
  intros (card & Hin & Hsel). split.
  - unfold handleExport. cbv zeta.
    assert (selectedCardData cards selectedCards <> []) as Hne.
    { unfold selectedCardData. intros Hnil.
      assert (card ∈ List.filter
                (fun card => bool_decide (id card ∈ selectedCards)) cards)
        as Hc.
      { apply list_elem_of_In, filter_In. split; [by apply list_elem_of_In|].
        by apply bool_decide_eq_true. }
      rewrite Hnil in Hc. by apply elem_of_nil in Hc. }
    destruct (selectedCardData cards selectedCards) as [|c l] eqn:E; [done|].
    change (length (c :: l) =? 0)%nat with false. cbv iota.
    rewrite <- E. unfold selectedCardData.
    change (String.eqb "csv" "anki") with false.
    change (String.eqb "csv" "csv") with true. cbv iota.
    f_equal. f_equal. f_equal; [|apply title_or_flashcards].
    rewrite append_assoc. do 3 f_equal.
    apply list_fmap_ext. intros _ x _. unfold csv_row, or_default.
    by destruct (difficulty x) as [d|]; simpl; [destruct (String.eqb d "")|].
  - split; [done|].
    intros created_at. eexists. split; [reflexivity|].
    split; [reflexivity|]. split; [reflexivity|].
    unfold handleExport, selectedCardData. simpl.
    rewrite bool_decide_eq_true_2 by set_solver.
    rewrite (title_or_flashcards deck_title "csv"). reflexivity.
Qed.

(** C8, as the page has it: the Quizlet-text export of a deck of which
    exactly two cards are selected downloads the question and the answer
    of the first, joined by one tab, a newline, and the question and the
    answer of the second, joined by one tab, with no header; when no
    question and no answer of the two holds a line break, the content is
    exactly these two lines. *)
Theorem quizlet_text_of_two_cards
    deck_title before c1 between c2 after selectedCards :
  id c1 ∈ selectedCards -> id c2 ∈ selectedCards ->
  (forall c, c ∈ before ++ between ++ after -> id c ∉ selectedCards) ->
  handleExport exportToAnki JSON_stringify toISOString_now
    deck_title (before ++ c1 :: between ++ c2 :: after) selectedCards
    "quizlet-txt"
  = [SetExporting true;
     DownloadBlob
       (question c1 +:+ String "009"%char (answer c1 +:+
        String "010"%char
          (question c2 +:+ String "009"%char (answer c2))))
       "text/plain"
       (match deck_title with
        | Some title => if String.eqb title "" then "flashcards" else title
        | None => "flashcards"
        end +:+ ".txt");
     SetExporting false]
  /\ (single_line c1 -> single_line c2 ->
      split "010"
        (question c1 +:+ String "009"%char (answer c1 +:+
         String "010"%char
           (question c2 +:+ String "009"%char (answer c2))))
      = [question c1 +:+ String "009"%char (answer c1);
         question c2 +:+ String "009"%char (answer c2)]).
Proof.
  intros H1 H2 Hrest.
  assert (selectedCardData (before ++ c1 :: between ++ c2 :: after)
            selectedCards = [c1; c2]) as Hsel.
  { rewrite unselected_dropped, selected_kept by set_solver.
    rewrite unselected_dropped, selected_kept by set_solver.
    rewrite <- (app_nil_r after), unselected_dropped by set_solver.
    reflexivity. }
  split.
  - unfold handleExport. rewrite Hsel. simpl. unfold quizlet_txt_line.
    by rewrite append_assoc, (title_or_flashcards deck_title "txt").
  - intros [Hq1 Ha1] [Hq2 Ha2].
    assert (Hl : forall a b, occurs "010" a = false -> occurs "010" b = false ->
                   occurs "010" (a +:+ String "009"%char b) = false).
    { intros a b Ha Hb. rewrite occurs_app, Ha. simpl. by rewrite Hb. }
    change (question c1 +:+ String "009"%char (answer c1 +:+
            String "010"%char
              (question c2 +:+ String "009"%char (answer c2))))
      with (question c1 +:+ (String "009"%char (answer c1) +:+
            String "010"%char
              (question c2 +:+ String "009"%char (answer c2)))).
    rewrite <- append_assoc.
    rewrite split_line by by apply Hl.
    by rewrite split_single by by apply Hl.
Qed.

End Formats.

Lemma csv_export_rows_witness :
  handleExport anki_resolves json_unused "" (Some "Biology")
    [second_card; example_card_qa; third_card] {["c1"]} "csv"
  = [SetExporting true;
     DownloadBlob
       ("Front,Back,Type,Difficulty" +:+
        String "010"%char
          (String "034"%char ("Q1" +:+
           String "034"%char (String "034"%char ("x" +:+
           String "034"%char ("," +:+
           String "034"%char ("A1" +:+
           String "034"%char ("," +:+
           String "034"%char ("qa" +:+
           String "034"%char ("," +:+
           String "034"%char ("medium" +:+
           String "034"%char "")))))))))))
       "text/csv" "Biology.csv";
     SetExporting false].
Proof.
  destruct (csv_export_rows anki_resolves json_unused "" (Some "Biology")
              [second_card; example_card_qa; third_card] {["c1"]})
    as [H _].
  - exists example_card_qa. split; [|by vm_compute].
    simpl. right. left.
  - exact H.
Defined.

Lemma quizlet_text_of_two_cards_witness :
  handleExport anki_resolves json_unused "" (Some "Biology")
    [example_card_qa; second_card; third_card] {["c1"; "c3"]} "quizlet-txt"
  = [SetExporting true;
     DownloadBlob
       ("Q1" +:+ String "034"%char ("x" +:+ String "009"%char ("A1" +:+
        String "010"%char ("Q3" +:+ String "009"%char "A3"))))
       "text/plain" "Biology.txt";
     SetExporting false]
  /\ split "010"
       ("Q1" +:+ String "034"%char ("x" +:+ String "009"%char ("A1" +:+
        String "010"%char ("Q3" +:+ String "009"%char "A3"))))
     = ["Q1" +:+ String "034"%char ("x" +:+ String "009"%char "A1");
        "Q3" +:+ String "009"%char "A3"].
Proof.
  destruct (quizlet_text_of_two_cards anki_resolves json_unused ""
              (Some "Biology") [] example_card_qa [second_card] third_card []
              {["c1"; "c3"]}) as [H1 H2].
  - by vm_compute.
  - by vm_compute.
  - intros c [->|Hc]%elem_of_cons; [by vm_compute|].
    by apply elem_of_nil in Hc.
  - split; [exact H1|]. by apply H2.
Defined.

(** C8 as stated fails for a card whose question holds a line break: the
    export of two selected cards then has three lines. *)
Lemma line_break_in_a_question_adds_a_line :
  handleExport anki_resolves json_unused "" (Some "Biology")
    [two_line_card; second_card] {["c1"; "c2"]} "quizlet-txt"
  = [SetExporting true;
     DownloadBlob
       ("Q1" +:+ String "010"%char ("continued" +:+ String "009"%char
          ("A1" +:+ String "010"%char ("Q2" +:+ String "009"%char "A2"))))
       "text/plain" "Biology.txt";
     SetExporting false]
  /\ split "010"
       ("Q1" +:+ String "010"%char ("continued" +:+ String "009"%char
          ("A1" +:+ String "010"%char ("Q2" +:+ String "009"%char "A2"))))
     = ["Q1"; "continued" +:+ String "009"%char "A1";
        "Q2" +:+ String "009"%char "A2"]
  /\ ~ two_lines
         (handleExport anki_resolves json_unused "" (Some "Biology")
            [two_line_card; second_card] {["c1"; "c2"]} "quizlet-txt").
Proof.
  assert (handleExport anki_resolves json_unused "" (Some "Biology")
            [two_line_card; second_card] {["c1"; "c2"]} "quizlet-txt"
          = [SetExporting true;
             DownloadBlob
               ("Q1" +:+ String "010"%char ("continued" +:+ String "009"%char
                  ("A1" +:+ String "010"%char
                     ("Q2" +:+ String "009"%char "A2"))))
               "text/plain" "Biology.txt";
             SetExporting false]) as Hrun by (by vm_compute).
  split; [exact Hrun|]. split; [reflexivity|].
  rewrite Hrun. intros (content & mimeType & filename & [= <- _ _] & Hlen).
  vm_compute in Hlen. discriminate.
Qed.

End ExportFacts.

(** ** Further facts about [onFileUpload] *)
Module HandlerFacts.
Import Functions UploadSpec HandlerSpec JsFacts UploadFacts.

#[local] Arguments type_allowed : simpl never.
#[local] Arguments includes : simpl never.
#[local] Arguments exceeds : simpl never.
#[local] Arguments fileExtension : simpl never.
#[local] Arguments show : simpl never.
#[local] Arguments split : simpl never.
#[local] Arguments add_cards : simpl never.

(** *** When the handler throws *)

Lemma never_throws_bind {A B} (m : M A) (f : A -> M B) :
  never_throws m -> (forall a, never_throws (f a)) -> never_throws (m ≫= f).
Proof.
  intros Hm Hf w e. unfold mbind, M_bind. specialize (Hm w).
  destruct (m w) as [[a| |e'] w']; simpl in *;
    [apply Hf | done | by destruct (Hm e')].
Qed.

Lemma never_throws_try_catch {A} (m : M A) (h : Thrown -> M A) :
  (forall e, never_throws (h e)) -> never_throws (try_catch m h).
Proof.
  intros Hh w e. unfold try_catch.
  destruct (m w) as [[a| |e'] w']; simpl; [done|done|apply Hh].
Qed.

Lemma never_throws_log lvl msg : never_throws (log lvl msg).
Proof. by intros w e. Qed.

Lemma never_throws_validate object : never_throws (validate object).
Proof.
  intros w e. destruct (only_logs_validate object w) as (_ & _ & _ & H).
  apply H.
Qed.

Lemma never_throws_process env object : never_throws (process env object).
Proof.
  unfold process. apply never_throws_bind; [apply never_throws_validate|].
  intros u. apply never_throws_try_catch. intros e. unfold record_failure.
  apply never_throws_bind; [apply never_throws_log|]. intros _.
  apply never_throws_try_catch. intros _. apply never_throws_log.
Qed.

(** X1: whatever the collaborators do, the handler ends by throwing
    exactly when the event names no bucket, which makes the call of line
    14 throw outside every try; with a bucket name, every exception of the
    extraction, of the request and of the writes is caught, and so is one
    raised while the failed Deck is recorded. *)
Theorem handler_throws_only_without_bucket env object w :
  (exists e, (onFileUpload env object w).1 = Threw e)
  <-> object_bucket object = "".
Proof.
  split.
  - intros [e He]. destruct (decide (object_bucket object = "")) as [|Hb];
      [done|].
    rewrite handler_with_bucket in He by done.
    by destruct (never_throws_process env object w e).
  - intros Hb. destruct (handler_without_bucket env object w Hb) as [e ->].
    by exists e.
Qed.

(** *** At most one request *)

Lemma requests_app l1 l2 : requests (l1 ++ l2) = (requests l1 + requests l2)%nat.
Proof. unfold requests. by rewrite List.filter_app, length_app. Qed.

Lemma at_most_mono {A} n n' (m : M A) :
  (n <= n')%nat -> at_most_requests n m -> at_most_requests n' m.
Proof. intros Hn Hm w. destruct (Hm w) as (l & ? & ?). exists l. split; [done|lia]. Qed.

Lemma at_most_bind {A B} n k (m : M A) (f : A -> M B) :
  at_most_requests n m -> (forall a, at_most_requests k (f a)) ->
  at_most_requests (n + k) (m ≫= f).
Proof.
  intros Hm Hf w. destruct (Hm w) as (l1 & H1 & N1).
  unfold mbind, M_bind. destruct (m w) as [[a| |e] w1]; simpl in *.
  - destruct (Hf a w1) as (l2 & H2 & N2). exists (l1 ++ l2).
    rewrite H2, H1, requests_app, app_assoc. split; [done|lia].
  - exists l1. split; [done|lia].
  - exists l1. split; [done|lia].
Qed.

Lemma at_most_try_catch {A} n k (m : M A) (h : Thrown -> M A) :
  at_most_requests n m -> (forall e, at_most_requests k (h e)) ->
  at_most_requests (n + k) (try_catch m h).
Proof.
  intros Hm Hh w. destruct (Hm w) as (l1 & H1 & N1).
  unfold try_catch. destruct (m w) as [[a| |e] w1]; simpl in *.
  - exists l1. split; [done|lia].
  - exists l1. split; [done|lia].
  - destruct (Hh e w1) as (l2 & H2 & N2). exists (l1 ++ l2).
    rewrite H2, H1, requests_app, app_assoc. split; [done|lia].
Qed.

Lemma quiet_unchanged {A} (m : M A) :
  (forall w, effects (m w).2 = effects w) -> at_most_requests 0 m.
Proof. intros H w. exists []. by rewrite H, app_nil_r. Qed.

Lemma quiet_ret {A} (a : A) : at_most_requests 0 (mret a).
Proof. by apply quiet_unchanged. Qed.

Lemma quiet_return {A} : at_most_requests 0 (@early_return A).
Proof. by apply quiet_unchanged. Qed.

Lemma quiet_throw {A} e : at_most_requests 0 (@throw A e).
Proof. by apply quiet_unchanged. Qed.

Lemma quiet_await {A} (r : Result A) : at_most_requests 0 (await r).
Proof. apply quiet_unchanged. by destruct r. Qed.

Lemma quiet_prop v k : at_most_requests 0 (prop v k).
Proof. apply quiet_unchanged. intros w. unfold prop. by case_match. Qed.

Lemma quiet_now env : at_most_requests 0 (now env).
Proof. by apply quiet_unchanged. Qed.

Lemma quiet_emit e : is_request e = false -> at_most_requests 0 (emit e).
Proof.
  intros He w. exists [e]. split; [done|]. unfold requests. simpl.
  by rewrite He.
Qed.

Lemma quiet_write env e f :
  is_request e = false -> at_most_requests 0 (write env e f).
Proof.
  intros He w. unfold write. destruct (write_fault env (db_writes w)); simpl.
  - exists []. by rewrite app_nil_r.
  - exists [e]. split; [done|]. unfold requests. simpl. by rewrite He.
Qed.

Lemma quiet_bind {A B} (m : M A) (f : A -> M B) :
  at_most_requests 0 m -> (forall a, at_most_requests 0 (f a)) ->
  at_most_requests 0 (m ≫= f).
Proof. apply (at_most_bind 0 0). Qed.

Lemma quiet_try_catch {A} (m : M A) (h : Thrown -> M A) :
  at_most_requests 0 m -> (forall e, at_most_requests 0 (h e)) ->
  at_most_requests 0 (try_catch m h).
Proof. apply (at_most_try_catch 0 0). Qed.

Lemma quiet_when c (m : M unit) :
  at_most_requests 0 m -> at_most_requests 0 (when c m).
Proof. destruct c; simpl; auto using quiet_ret. Qed.

Ltac quiet :=
  repeat first
    [ apply quiet_bind; [|intros ?] | apply quiet_try_catch; [|intros ?]
    | apply quiet_when | apply quiet_ret | apply quiet_return
    | apply quiet_throw | apply quiet_await | apply quiet_prop
    | apply quiet_now | apply quiet_emit; reflexivity
    | apply quiet_write; reflexivity | case_match ].

Lemma quiet_validate object : at_most_requests 0 (validate object).
Proof.
  intros w. destruct (only_logs_validate object w) as (l & Hw & Hl & _).
  exists l. rewrite Hw. split; [done|]. unfold requests.
  assert (List.filter is_request l = []) as ->; [|simpl; lia].
  clear Hw. induction l as [|e l IH]; [done|]. simpl in *.
  apply andb_true_iff in Hl as [He Hl]. rewrite IH by done.
  by destruct e.
Qed.

Lemma quiet_add_cards deckId cards index batch :
  at_most_requests 0 (add_cards deckId cards index batch).
Proof.
  revert index batch. induction cards as [|card cards IH]; intros index batch;
    unfold add_cards; fold add_cards.
  - apply quiet_ret.
  - apply quiet_bind; [|intros ?; apply IH]. unfold add_card, doc. quiet.
Qed.

Lemma quiet_persist env u r : at_most_requests 0 (persist env u r).
Proof.
  unfold persist, deck_filename, doc_set, batch_commit, log.
  quiet; apply quiet_add_cards.
Qed.

Lemma quiet_record_failure env u e :
  at_most_requests 0 (record_failure env u e).
Proof. unfold record_failure, deck_filename, doc_set, log. quiet. Qed.

Lemma one_post env url body config : at_most_requests 1 (post env url body config).
Proof.
  intros w. unfold post, mbind, M_bind. simpl.
  destruct (axios_post env url body config); simpl;
    by exists [HttpPost url body config].
Qed.

Lemma one_request env u : at_most_requests 1 (request_flashcards env u).
Proof.
  unfold request_flashcards, file_download, log.
  destruct (String.eqb (fileType u) "documents");
    [|destruct (String.eqb (fileType u) "audio")].
  - repeat (apply (at_most_bind 0 1); [solve [quiet] | intros ?]).
    apply (at_most_bind 1 0); [apply one_post | intros ?; quiet].
  - repeat (apply (at_most_bind 0 1); [solve [quiet] | intros ?]).
    apply (at_most_bind 1 0); [apply one_post | intros ?; quiet].
  - apply (at_most_mono 0); [lia | quiet].
Qed.

(** X2: one invocation makes at most one request to the AI service,
    whatever the service answers: nothing is retried. *)
Theorem at_most_one_request env object w :
  exists l, effects (run env object w) = effects w ++ l
            /\ (requests l <= 1)%nat.
Proof.
  apply (at_most_mono (0 + (0 + ((1 + 0) + 0))) 1
           (onFileUpload env object)); [lia|].
  unfold onFileUpload. apply at_most_bind; [unfold storage_bucket; quiet|].
  intros _. unfold process.
  apply at_most_bind; [apply quiet_validate|]. intros u.
  apply at_most_try_catch.
  - apply at_most_bind; [apply one_request | intros r; apply quiet_persist].
  - intros e. apply quiet_record_failure.
Qed.

(** *** What is sent to the AI service *)

Lemma emits_ext {A} P (m m' : M A) :
  (forall w, m w = m' w) -> emits P m' -> emits P m.
Proof. intros He Hm w. rewrite He. apply Hm. Qed.

Lemma emits_unchanged {A} P (m : M A) :
  (forall w, effects (m w).2 = effects w) -> emits P m.
Proof. intros H w. exists []. by rewrite H, app_nil_r. Qed.

Lemma emits_emit P e : P e -> emits P (emit e).
Proof. intros He w. exists [e]. split; [done|]. by apply Forall_singleton. Qed.

Lemma emits_bind {A B} P (m : M A) (f : A -> M B) :
  emits P m -> (forall a, emits P (f a)) -> emits P (m ≫= f).
Proof.
  intros Hm Hf w. destruct (Hm w) as (l1 & H1 & P1).
  unfold mbind, M_bind. destruct (m w) as [[a| |e] w1]; simpl in *; eauto.
  destruct (Hf a w1) as (l2 & H2 & P2). exists (l1 ++ l2).
  rewrite H2, H1, app_assoc. split; [done|]. by apply Forall_app.
Qed.

Lemma emits_try_catch {A} P (m : M A) (h : Thrown -> M A) :
  emits P m -> (forall e, emits P (h e)) -> emits P (try_catch m h).
Proof.
  intros Hm Hh w. destruct (Hm w) as (l1 & H1 & P1).
  unfold try_catch. destruct (m w) as [[a| |e] w1]; simpl in *; eauto.
  destruct (Hh e w1) as (l2 & H2 & P2). exists (l1 ++ l2).
  rewrite H2, H1, app_assoc. split; [done|]. by apply Forall_app.
Qed.

(** A guard [if (c) { log; return; }] lets the rest run only when [c] is
    false. *)
Lemma emits_guard {B} P c lvl msg (k : unit -> M B) :
  P (Log lvl msg) -> (c = false -> emits P (k tt)) ->
  emits P (when c (log lvl msg;; early_return) ≫= k).
Proof.
  intros Hl Hk. destruct c.
  - intros w. exists [Log lvl msg]. split; [done|]. by apply Forall_singleton.
  - eapply emits_ext; [intros w; apply step_when_false|]. by apply Hk.
Qed.

Lemma length_take n s :
  String.length (take n s) = Nat.min n (String.length s).
Proof.
  revert s. induction n as [|n IH]; intros [|c s]; simpl; [done..|].
  by rewrite IH.
Qed.

Lemma take_all n s : (String.length s <= n)%nat -> take n s = s.
Proof.
  revert s. induction n as [|n IH]; intros [|c s] Hl; simpl in *;
    [done|lia|done|]. rewrite IH; [done|lia].
Qed.

Lemma bounded_log lvl msg : bounded_request (Log lvl msg).
Proof. done. Qed.

Lemma emits_bounded_request env u :
  emits bounded_request (request_flashcards env u).
Proof.
  unfold request_flashcards.
  destruct (String.eqb (fileType u) "documents");
    [|destruct (String.eqb (fileType u) "audio")].
  - apply emits_bind.
    { apply emits_try_catch.
      - unfold file_download. apply emits_bind; [by apply emits_emit|].
        intros _. apply emits_unchanged. intros w. by destruct (download _ _ _).
      - intros _. apply emits_bind; [by apply emits_emit|]. intros _.
        by apply emits_unchanged. }
    intros fileBuffer. apply emits_guard; [done|]. intros _.
    apply emits_bind.
    { apply emits_try_catch.
      - apply emits_unchanged. intros w. by destruct (extract_text _ _ _).
      - intros _. apply emits_bind; [by apply emits_emit|]. intros _.
        by apply emits_unchanged. }
    intros textContent. apply emits_guard; [done|]. intros _.
    apply emits_guard; [done|]. intros Hmin. apply Z.ltb_ge in Hmin.
    assert (Hsend : forall text,
              minTextLength <= Z.of_nat (String.length text) <= maxTextLength ->
              emits bounded_request
                (log Info "Sending document text to AI service for processing...";;
                 data ← post env (AI_SERVICE_URL +:+ "/process") (TextBody text 15)
                          {| timeout := None; maxContentLength := None |};
                 mret (Some data))).
    { intros text Ht. apply emits_bind; [by apply emits_emit|]. intros _.
      apply emits_bind; [|intros ?; by apply emits_unchanged].
      unfold post. apply emits_bind; [by apply emits_emit|]. intros _.
      apply emits_unchanged. intros w. by destruct (axios_post _ _ _ _). }
    destruct (maxTextLength <? Z.of_nat (String.length textContent)) eqn:Hmax.
    + apply Z.ltb_lt in Hmax.
      eapply emits_ext; [intros w; rewrite step_bind_assoc, step_log; reflexivity|].
      intros w. destruct (Hsend (substring_to maxTextLength textContent))
        with (w := add_effects w [Log Warn ("Text content very long: "
                       +:+ show (Z.of_nat (String.length textContent))
                       +:+ " characters. Truncating to "
                       +:+ show maxTextLength +:+ ".")]) as (l & Hl & Pl).
      { unfold substring_to. rewrite length_take.
        unfold minTextLength, maxTextLength in *. lia. }
      eexists (_ :: l). rewrite step_ret, Hl. simpl. rewrite <- app_assoc.
      split; [reflexivity|]. by apply Forall_cons.
    + apply Z.ltb_ge in Hmax.
      eapply emits_ext; [intros w; apply step_ret|]. by apply Hsend.
  - apply emits_bind; [by apply emits_emit|]. intros _.
    apply emits_bind.
    { unfold file_download. apply emits_bind; [by apply emits_emit|].
      intros _. apply emits_unchanged. intros w. by destruct (download _ _ _). }
    intros fileBuffer.
    apply emits_bind; [|intros ?; by apply emits_unchanged].
    unfold post. apply emits_bind; [by apply emits_emit|]. intros _.
    apply emits_unchanged. intros w. by destruct (axios_post _ _ _ _).
  - by apply emits_unchanged.
Qed.


Lemma quiet_emits {A} (m : M A) :
  at_most_requests 0 m -> emits bounded_request m.
Proof.
  intros Hm w. destruct (Hm w) as (l & Hl & Hn). exists l. split; [done|].
  clear Hl. unfold requests in Hn. induction l as [|e l IH]; [done|].
  simpl in Hn. destruct (is_request e) eqn:He; simpl in Hn; [lia|].
  apply Forall_cons. split; [by destruct e | by apply IH].
Qed.

(** X3: every request an invocation makes to the AI service is one of two:
    a text of at least 10 and at most 100000 characters, for 15 cards,
    posted to /process without request configuration; or an audio form,
    for 12 cards, posted to /process-audio with a timeout of 300000 ms and
    a maximal content length of 50 MiB. *)
Theorem requests_are_bounded env object w :
  exists l, effects (run env object w) = effects w ++ l
            /\ Forall bounded_request l.
Proof.
  apply (emits_bind bounded_request (storage_bucket (object_bucket object))).
  { apply emits_unchanged. intros w0. unfold storage_bucket.
    by destruct (String.eqb _ _). }
  intros _. apply (emits_bind bounded_request (validate object)).
  - apply quiet_emits, quiet_validate.
  - intros u. apply emits_try_catch.
    + apply emits_bind; [apply emits_bounded_request|].
      intros r. apply quiet_emits, quiet_persist.
    + intros e. apply quiet_emits, quiet_record_failure.
Qed.


(** X4: for a validated document whose text is extracted, the request
    stage downloads the object once and posts exactly one request to
    /process, for 15 cards, carrying the first 100000 characters of the
    extracted text (the whole text when it is not longer); the stage ends
    with the response body, or throws what the request throws. *)
Theorem extracted_text_is_sent env u w textContent :
  extracted env u textContent ->
  let url := AI_SERVICE_URL +:+ "/process" in
  let body := TextBody (substring_to maxTextLength textContent) 15 in
  let config := {| timeout := None; maxContentLength := None |} in
  (exists logs,
     forallb is_log logs = true
     /\ effects (request_flashcards env u w).2
        = effects w ++ [Download (bucket u) (filePath u)] ++ logs
            ++ [HttpPost url body config])
  /\ (request_flashcards env u w).1
     = match axios_post env url body config with
       | Resolved data => Value (Some data)
       | Rejected e => Threw e
       end.
Proof.
  intros (buffer & Hk & Hd & Hb & Hx & Ht & Hmin) url body config.
  subst url body config. destruct w as [d l c n].
  unfold request_flashcards. rewrite Hk. simpl.
  erewrite bind_value;
    [|unfold try_catch; by erewrite file_download_resolved].
  destruct buffer as [|b0 buffer]; [done|]. simpl. msteps.
  erewrite bind_value; [|unfold try_catch; by rewrite Hx].
  apply String.eqb_neq in Ht. rewrite Ht. msteps.
  apply Z.ltb_ge in Hmin. rewrite Hmin. msteps.
  destruct (maxTextLength <? Z.of_nat (String.length textContent)) eqn:Hmax;
    msteps; unfold post, emit, add_effects; simpl.
  - unfold mbind, M_bind. simpl.
    destruct (axios_post env _ _ _); simpl;
      (split; [|done]); eexists [Log _ _; Log _ _]; (split; [done|]);
      by rewrite <- !app_assoc.
  - apply Z.ltb_ge in Hmax. unfold substring_to.
    rewrite (take_all (Z.to_nat maxTextLength)) by lia.
    unfold mbind, M_bind. simpl.
    destruct (axios_post env _ _ _); simpl;
      (split; [|done]); eexists [Log _ _]; (split; [done|]);
      by rewrite <- !app_assoc.
Qed.

Lemma extracted_text_is_sent_witness :
  (request_flashcards (answering two_cards) notes_u notes_validated).1
  = Value (Some (body_of two_cards)).
Proof.
  apply (extracted_text_is_sent (answering two_cards) notes_u notes_validated
           sample_text).
  exists sample_text. by repeat split.
Defined.


(** *** Failures during persistence *)

Lemma bind_threw {A B} (m : M A) (k : A -> M B) w e w' :
  m w = (Threw e, w') -> (m ≫= k) w = (Threw e, w').
Proof. intros H. unfold mbind, M_bind. by rewrite H. Qed.







Lemma write_rejected env e f d l c n err :
  write_fault env n = Some err ->
  write env e f {| db := d; effects := l; clock_reads := c; db_writes := n |}
  = (Threw err, {| db := d; effects := l; clock_reads := c; db_writes := S n |}).
Proof. intros H. unfold write. simpl. by rewrite H. Qed.








(** X7: recording the failure is best effort: when the handler holds the
    bucket, the request stage throws and the write of the failed Deck is
    rejected too, the invocation logs both errors, stores nothing and
    still ends normally. *)
Theorem rejected_failure_record_is_dropped env object w u w1 e w2 err :
  object_bucket object <> "" ->
  validate object w = (Value u, w1) ->
  request_flashcards env u w1 = (Threw e, w2) ->
  write_fault env (db_writes w) = Some err ->
  db (run env object w) = db w
  /\ effects (run env object w)
     = effects w2 ++
         [Log Error "Error calling AI service or saving to Firestore:";
          Log Error "Failed to create error deck entry:"]
  /\ (onFileUpload env object w).1 = Value tt.
Proof.
  intros Hb Hv Hreq Hw.
  destruct (run_request_threw _ _ _ _ _ _ _ Hb Hv Hreq) as (Hd & Hn & Hrun).
  unfold run. rewrite Hrun. destruct w2 as [d l c n]. simpl in *. subst d n.
  unfold record_failure. msteps. unfold add_effects. simpl.
  destruct (deck_filename_value env (filePath u) (db w)
    (l ++ [Log Error "Error calling AI service or saving to Firestore:"])
    c (db_writes w)) as (name & c' & Hname).
  unfold try_catch.
  erewrite bind_value by exact Hname.
  erewrite bind_value by reflexivity. simpl. unfold doc_set.
  erewrite bind_threw by (by apply write_rejected).
  simpl. by rewrite <- app_assoc.
Qed.

Lemma rejected_failure_record_is_dropped_witness :
  db (run offline_env notes_upload empty_world) = ∅
  /\ (onFileUpload offline_env notes_upload empty_world).1 = Value tt.
Proof.
  destruct (rejected_failure_record_is_dropped offline_env notes_upload
              empty_world notes_u notes_validated (ErrorObj "Network Error")
              (notes_answered offline_env) (ErrorObj "UNAVAILABLE"))
    as (H1 & _ & H3); try reflexivity; [discriminate|].
  by split.
Defined.


(** *** What validation establishes *)

Lemma validate_checked object w u w' :
  validate object w = (Value u, w') -> checked object u.
Proof.
  unfold checked.
  destruct object as [[p|] ct size b]; [|discriminate].
  unfold validate, path_admitted, type_and_extension_ok. simpl.
  destruct (split "/" p) as [|a [|k [|us [|f rest]]]] eqn:Hsplit;
    simpl; try discriminate.
  case_bool_decide as Ha; simpl; [|discriminate]. simplify_eq.
  head_guard; [discriminate|]. head_guard; [discriminate|].
  rewrite step_log.
  apply orb_false_iff in G as [Gu Gk].
  apply negb_false_iff in Gu. apply negb_false_iff in Gk.
  apply orb_false_iff in G0 as [_ Gc]. apply negb_false_iff in Gc.
  destruct ct as [ct|]; [|discriminate]. simpl in *.
  destruct (String.eqb k "documents") eqn:Hd;
    [|destruct (String.eqb k "audio") eqn:Hau].
  - rewrite !step_bind_assoc. head_guard; [discriminate|].
    rewrite ?step_bind_assoc. head_guard; [discriminate|].
    rewrite ?step_bind_assoc. head_guard; [discriminate|].
    intros [= <- <-]. simpl. rewrite Hsplit. simpl. rewrite Hd, Gu. simpl.
    apply negb_false_iff in G0, G1. rewrite G0, G1.
    apply String.eqb_eq in Hd. apply negb_true_iff, String.eqb_neq in Gu.
    apply negb_true_iff, String.eqb_neq in Gc.
    repeat split; try done; auto.
  - rewrite !step_bind_assoc. head_guard; [discriminate|].
    rewrite ?step_bind_assoc. head_guard; [discriminate|].
    rewrite ?step_bind_assoc. head_guard; [discriminate|].
    intros [= <- <-]. simpl. rewrite Hsplit. simpl. rewrite Hd, Hau, Gu. simpl.
    apply negb_false_iff in G0, G1. rewrite G0, G1.
    apply String.eqb_eq in Hau. apply negb_true_iff, String.eqb_neq in Gu.
    apply negb_true_iff, String.eqb_neq in Gc.
    repeat split; try done; auto.
  - rewrite step_log_return. discriminate.
Qed.

(** X8: an upload that passes validation has passed every check: its
    path has the admitted shape, with the user identifier and the kind
    taken from its third and second segment; the kind is documents or
    audio; a non-empty content type is declared and, with the extension,
    allowed for the kind; and the declared size does not exceed the ceiling
    of the kind. *)
Theorem accepted_upload_passed_every_check object w u w' :
  validate object w = (Value u, w') -> checked object u.
Proof. apply validate_checked. Qed.

Lemma accepted_upload_passed_every_check_witness :
  path_admitted (filePath notes_u) = true
  /\ type_and_extension_ok (fileType notes_u) (contentType notes_u)
       (filePath notes_u) = true.
Proof.
  destruct (accepted_upload_passed_every_check notes_upload empty_world
              notes_u notes_validated eq_refl)
    as (_ & _ & _ & _ & _ & H1 & _ & _ & _ & _ & _ & H2).
  by split.
Defined.

Lemma bad_type_or_extension_aborted env object w :
  (forall p kind ct,
     object_name object = Some p ->
     declared_kind object = Some kind ->
     object_contentType object = Some ct -> ct <> "" ->
     type_and_extension_ok kind ct p = false) ->
  aborted env object w.
Proof.
  intros Hbad. apply rejected_aborted.
  destruct (validate object w) as [[u| |e] w'] eqn:Hv; simpl; [|done|].
  - destruct (validate_checked _ _ _ _ Hv)
      as (Hn & Hc & Hne & _ & _ & _ & Hk & _ & _ & _ & _ & Hok).
    assert (type_and_extension_ok (fileType u) (contentType u) (filePath u)
            = false) as E; [|congruence].
    apply Hbad; [done| |done|done].
    unfold declared_kind. rewrite Hn. exact Hk.
  - pose proof (never_throws_validate object w e) as H.
    by rewrite Hv in H.
Qed.

(** X9: validation fails closed on the declared content type and on the
    extension: an upload whose content type is missing or empty, or whose
    content type or extension is not allowed for its kind, ends the
    invocation with log entries only, whatever its size. *)
Theorem disallowed_type_or_extension_aborts env object w :
  (forall p kind ct,
     object_name object = Some p ->
     declared_kind object = Some kind ->
     object_contentType object = Some ct -> ct <> "" ->
     type_and_extension_ok kind ct p = false) ->
  aborted env object w.
Proof. apply bad_type_or_extension_aborted. Qed.

Lemma disallowed_type_or_extension_aborts_witness :
  aborted (answering two_cards)
    {| object_name := Some "uploads/documents/u1/notes.docx";
       object_contentType :=
         Some "application/vnd.openxmlformats-officedocument.wordprocessingml.document";
       object_size := Some "58"; object_bucket := "recall-ai.appspot.com" |}
    empty_world.
Proof.
  apply disallowed_type_or_extension_aborts.
  intros p kind ct [= <-] [= <-] [= <-] _. reflexivity.
Defined.


(** *** Whose documents are written *)

Lemma emits_when P c (m : M unit) : emits P m -> emits P (when c m).
Proof. destruct c; [done|]. intros _. by apply emits_unchanged. Qed.

Lemma emits_ret {A} P (a : A) : emits P (mret a).
Proof. by apply emits_unchanged. Qed.

Lemma emits_return {A} P : emits P (@early_return A).
Proof. by apply emits_unchanged. Qed.

Lemma emits_await {A} P (r : Result A) : emits P (await r).
Proof. apply emits_unchanged. intros w. by destruct r. Qed.

Lemma emits_prop P v k : emits P (prop v k).
Proof. apply emits_unchanged. intros w. unfold prop. by destruct (get v k). Qed.

Lemma emits_now P env : emits P (now env).
Proof. by apply emits_unchanged. Qed.

Lemma emits_write P env e f : P e -> emits P (write env e f).
Proof.
  intros He w. unfold write. destruct (write_fault env (db_writes w)); simpl.
  - exists []. by rewrite app_nil_r.
  - exists [e]. split; [done|]. by apply Forall_singleton.
Qed.

Lemma emits_deck_filename P env p : emits P (deck_filename env p).
Proof.
  unfold deck_filename. destruct (truthy_str _); [apply emits_ret|].
  apply emits_bind; [apply emits_now|]. intros t. apply emits_ret.
Qed.

(** The continuation of a bind may rely on what the first part returns. *)
Lemma emits_bind_value {A B} P (Q : A -> Prop) (m : M A) (f : A -> M B) :
  emits P m -> (forall w a w', m w = (Value a, w') -> Q a) ->
  (forall a, Q a -> emits P (f a)) -> emits P (m ≫= f).
Proof.
  intros Hm HQ Hf w. destruct (Hm w) as (l1 & H1 & P1).
  unfold mbind, M_bind. specialize (HQ w).
  destruct (m w) as [[a| |e] w1]; simpl in *; eauto.
  destruct (Hf a (HQ a w1 eq_refl) w1) as (l2 & H2 & P2). exists (l1 ++ l2).
  rewrite H2, H1, app_assoc. split; [done|]. by apply Forall_app.
Qed.

Lemma bind_value_inv {A B} (m : M A) (f : A -> M B) w b w' :
  (m ≫= f) w = (Value b, w') ->
  exists a w1, m w = (Value a, w1) /\ f a w1 = (Value b, w').
Proof.
  unfold mbind, M_bind. destruct (m w) as [[a| |e] w1]; [|done..]. eauto.
Qed.

Lemma doc_unchanged documentPath w : (doc documentPath w).2 = w.
Proof. unfold doc. by repeat case_match. Qed.

Lemma add_card_unchanged deckId card index batch w :
  (add_card deckId card index batch w).2 = w.
Proof.
  unfold add_card, prop, mbind, M_bind, mret, M_ret, throw.
  destruct (get card "id"); [|done]. destruct (get card "type"); [|done].
  destruct (get card "question"); [|done].
  destruct (get card "answer"); [|done].
  destruct (get card "source_text"); [|done].
  destruct (get card "difficulty"); [|done].
  match goal with
  | |- context [doc ?v w] =>
      pose proof (doc_unchanged v w) as Hdoc;
      by destruct (doc v w) as [[?| |?] ?]
  end.
Qed.

Lemma add_cards_unchanged deckId cards index batch w :
  (add_cards deckId cards index batch w).2 = w.
Proof.
  revert index batch. induction cards as [|card cards IH]; intros index batch;
    [done|].
  change (add_cards deckId (card :: cards) index batch)
    with (add_card deckId card index batch
          ≫= λ b, add_cards deckId cards (S index) b).
  unfold mbind, M_bind.
  pose proof (add_card_unchanged deckId card index batch w) as Hc.
  destruct (add_card deckId card index batch w) as [[b| |e] w1];
    simpl in *; subst w1; [apply IH|done..].
Qed.

Lemma add_card_refs deckId card index batch w b w' :
  add_card deckId card index batch w = (Value b, w') ->
  Forall (card_of deckId) batch -> Forall (card_of deckId) b.
Proof.
  unfold add_card, prop, mbind, M_bind, mret, M_ret, throw.
  destruct (get card "id"); [|done]. destruct (get card "type"); [|done].
  destruct (get card "question"); [|done].
  destruct (get card "answer"); [|done].
  destruct (get card "source_text"); [|done].
  destruct (get card "difficulty"); [|done].
  match goal with
  | |- context [doc ?v w] => destruct (doc v w) as [[cardPath| |?] ?]
  end; try done.
  intros [= <- _] Hb. apply Forall_app. split; [done|].
  apply Forall_singleton. by eexists _, _.
Qed.

Lemma add_cards_refs deckId cards index batch w b w' :
  add_cards deckId cards index batch w = (Value b, w') ->
  Forall (card_of deckId) batch -> Forall (card_of deckId) b.
Proof.
  revert index batch w. induction cards as [|card cards IH];
    intros index batch w; [by intros [= <- _]|].
  change (add_cards deckId (card :: cards) index batch)
    with (add_card deckId card index batch
          ≫= λ b, add_cards deckId cards (S index) b).
  intros (b1 & w1 & H1 & H2)%bind_value_inv Hb.
  eapply IH; [done|]. by eapply add_card_refs.
Qed.

Lemma startsWith_app a b : startsWith (a +:+ b) a = true.
Proof.
  unfold startsWith. induction a as [|c a IH]; simpl.
  - by destruct b.
  - by destruct (Ascii.ascii_dec c c).
Qed.

Lemma own_prefix user rest :
  startsWith (user +:+ "_" +:+ rest) (user +:+ "_") = true.
Proof. rewrite <- append_assoc. apply startsWith_app. Qed.

Ltac emits_step :=
  first
    [ apply emits_ret | apply emits_return | apply emits_await
    | apply emits_prop | apply emits_now | apply emits_deck_filename
    | apply emits_emit; done
    | apply emits_when
    | apply emits_bind; [|intros ?]
    | apply emits_try_catch; [|intros ?]
    | match goal with
      | |- emits _ (if ?c then _ else _) => destruct c
      | |- emits _ (match ?x with _ => _ end) => destruct x
      end ].

Lemma owned_request env user u :
  emits (owned_by user) (request_flashcards env u).
Proof.
  unfold request_flashcards, file_download, post. repeat emits_step.
Qed.

Lemma owned_persist env u r :
  emits (owned_by (upload_userId u)) (persist env u r).
Proof.
  unfold persist. apply emits_bind; [by apply emits_emit|]. intros _.
  destruct r as [aiData|]; [|repeat emits_step].
  apply emits_bind; [apply emits_prop|]. intros success.
  apply emits_bind; [apply emits_prop|]. intros flashcards_field.
  apply emits_bind; [repeat emits_step|]. intros _.
  destruct flashcards_field as [| | | | |flashcards|]; try apply emits_return.
  apply emits_bind; [repeat emits_step|]. intros _.
  apply emits_bind; [apply emits_deck_filename|]. intros filename.
  apply emits_bind; [apply emits_now|]. intros t.
  apply emits_bind; [apply emits_prop|]. intros model.
  apply emits_bind; [apply emits_prop|]. intros aiTranscription.
  apply (emits_bind_value _ (fun d => userId d = upload_userId u)).
  - repeat emits_step.
  - intros w d w'. destruct (_ && _); [|by intros [= <- _]].
    intros (? & ? & _ & H)%bind_value_inv.
    apply bind_value_inv in H as (? & ? & _ & H).
    apply bind_value_inv in H as (? & ? & _ & H).
    apply bind_value_inv in H as (? & ? & _ & H).
    apply bind_value_inv in H as (? & ? & _ & H).
    by injection H as <- _.
  - intros d Hd.
    apply emits_bind.
    { apply emits_write. split; [done|]. apply own_prefix. }
    intros _.
    apply (emits_bind_value _ (Forall (card_of
             (upload_userId u +:+ "_" +:+ filename +:+ "_" +:+ show t)))).
    + apply emits_unchanged. intros w. by rewrite add_cards_unchanged.
    + intros w b w' Hb. by eapply add_cards_refs.
    + intros batch Hbatch. apply emits_bind; [|intros _; by apply emits_emit].
      apply emits_write. eexists. split; [apply own_prefix|done].
Qed.

Lemma owned_record_failure env u e :
  emits (owned_by (upload_userId u)) (record_failure env u e).
Proof.
  unfold record_failure. apply emits_bind; [by apply emits_emit|]. intros _.
  apply emits_try_catch; [|intros _; by apply emits_emit].
  apply emits_bind; [apply emits_deck_filename|]. intros filename.
  apply emits_bind; [apply emits_now|]. intros t.
  apply emits_bind; [|intros _; by apply emits_emit].
  apply emits_write. split; [done|]. apply own_prefix.
Qed.

(** X10: every write of an invocation is made on behalf of the user named
    by the third segment of the object's path: a deck document written
    carries that user as its owner and an identifier beginning with the
    user's identifier and an underscore, a committed batch holds only
    card documents of one such deck, and nothing else is written. *)
Theorem writes_belong_to_the_uploader env object w :
  exists l, effects (run env object w) = effects w ++ l
            /\ Forall (owned object) l.
Proof.
  destruct (decide (object_bucket object = "")) as [Hb|Hb].
  { rewrite run_without_bucket by done. exists []. by rewrite app_nil_r. }
  destruct (only_logs_validate object w) as (l1 & Hw & Hl & _).
  assert (Forall (owned object) l1) as Hl1.
  { clear Hw. induction l1 as [|e l IH]; [done|]. simpl in Hl.
    apply andb_true_iff in Hl as [He Hl]. apply Forall_cons.
    split; [|by apply IH]. unfold owned.
    destruct e; try done. by destruct (declared_user object). }
  unfold run. rewrite handler_with_bucket by done. unfold process.
  destruct (validate object w) as [[u| |e] w1] eqn:Hv; simpl in Hw; subst w1;
    [|unfold mbind, M_bind; rewrite Hv; by exists l1..].
  rewrite (bind_value _ _ _ _ _ Hv).
  destruct (validate_checked _ _ _ _ Hv)
    as (Hn & _ & _ & _ & _ & _ & _ & Hu & _).
  assert (emits (owned_by (upload_userId u))
            (try_catch
               (aiServiceResponse ← request_flashcards env u;
                persist env u aiServiceResponse)
               (record_failure env u))) as Hm.
  { apply emits_try_catch.
    - apply emits_bind; [apply owned_request|]. intros r. apply owned_persist.
    - intros e. apply owned_record_failure. }
  destruct (Hm (add_effects w l1)) as (l2 & H2 & P2).
  exists (l1 ++ l2). rewrite H2. simpl. rewrite app_assoc. split; [done|].
  apply Forall_app. split; [done|].
  unfold owned, declared_user. rewrite Hn. simpl. by rewrite Hu.
Qed.


(** *** Which documents an invocation can change *)

Lemma touches_no_write {A} S (m : M A) : no_write m -> touches_only S m.
Proof. intros Hm w r _. by destruct (Hm w) as [-> _]. Qed.

Lemma touches_bind_value {A B} S (Q : A -> Prop) (m : M A) (f : A -> M B) :
  touches_only S m -> (forall w a w', m w = (Value a, w') -> Q a) ->
  (forall a, Q a -> touches_only S (f a)) -> touches_only S (m ≫= f).
Proof.
  intros Hm HQ Hf w r Hr. specialize (Hm w r Hr). specialize (HQ w).
  unfold mbind, M_bind. destruct (m w) as [[a| |e] w1]; simpl in *; [|done..].
  by rewrite (Hf a (HQ a w1 eq_refl) w1 r Hr).
Qed.

Lemma touches_bind {A B} S (m : M A) (f : A -> M B) :
  touches_only S m -> (forall a, touches_only S (f a)) ->
  touches_only S (m ≫= f).
Proof.
  intros Hm Hf. apply (touches_bind_value S (fun _ => True)); auto.
Qed.

Lemma touches_try_catch {A} S (m : M A) (h : Thrown -> M A) :
  touches_only S m -> (forall e, touches_only S (h e)) ->
  touches_only S (try_catch m h).
Proof.
  intros Hm Hh w r Hr. specialize (Hm w r Hr). unfold try_catch.
  destruct (m w) as [[a| |e] w1]; simpl in *; [done..|].
  by rewrite (Hh e w1 r Hr).
Qed.

Lemma touches_write S env e f :
  (forall (fs : Firestore) r, S r = false -> f fs !! r = fs !! r) ->
  touches_only S (write env e f).
Proof.
  intros Hf w r Hr. unfold write.
  destruct (write_fault env (db_writes w)); simpl; [done|]. by apply Hf.
Qed.

Lemma touches_doc_set S env ref data :
  S ref = true -> touches_only S (doc_set env ref data).
Proof.
  intros Href. apply touches_write. intros fs r Hr.
  apply lookup_insert_ne. congruence.
Qed.

Lemma touches_batch_commit user env deckId batch :
  startsWith deckId (user +:+ "_") = true ->
  Forall (card_of deckId) batch ->
  touches_only (in_namespace user) (batch_commit env batch).
Proof.
  intros Hd Hb. apply touches_write. intros fs r Hr.
  apply apply_batch_lookup_other.
  intros ([r' d'] & -> & Hin)%list_elem_of_fmap.
  rewrite Forall_forall in Hb. destruct (Hb _ Hin) as (cardId & c & [= -> _]).
  unfold in_namespace in Hr. simpl in Hr. congruence.
Qed.

Lemma no_write_prop v k : no_write (prop v k).
Proof. intros w. unfold prop. by destruct (get v k). Qed.

Lemma no_write_now env : no_write (now env).
Proof. done. Qed.

Lemma no_write_deck_filename env p : no_write (deck_filename env p).
Proof. unfold deck_filename. by destruct (truthy_str _). Qed.

Lemma no_write_log lvl msg : no_write (log lvl msg).
Proof. done. Qed.

Lemma touches_persist env u r :
  touches_only (in_namespace (upload_userId u)) (persist env u r).
Proof.
  unfold persist.
  apply touches_bind; [apply touches_no_write, no_write_log|]. intros _.
  destruct r as [aiData|];
    [|apply touches_no_write; unfold log; no_write_tac].
  apply touches_bind; [apply touches_no_write, no_write_prop|]. intros success.
  apply touches_bind; [apply touches_no_write, no_write_prop|].
  intros flashcards_field.
  apply touches_bind; [apply touches_no_write; unfold log; no_write_tac|].
  intros _.
  destruct flashcards_field as [| | | | |flashcards|];
    try apply touches_no_write, no_write_return.
  apply touches_bind; [apply touches_no_write; unfold log; no_write_tac|].
  intros _.
  apply touches_bind; [apply touches_no_write, no_write_deck_filename|].
  intros filename.
  apply touches_bind; [apply touches_no_write, no_write_now|]. intros t.
  apply touches_bind; [apply touches_no_write, no_write_prop|]. intros model.
  apply touches_bind; [apply touches_no_write, no_write_prop|].
  intros aiTranscription.
  apply touches_bind.
  { apply touches_no_write. destruct (_ && _); [|apply no_write_ret].
    repeat (apply no_write_bind; [apply no_write_prop|intros ?]).
    apply no_write_ret. }
  intros d.
  apply touches_bind; [apply touches_doc_set, own_prefix|]. intros _.
  apply (touches_bind_value _ (Forall (card_of
           (upload_userId u +:+ "_" +:+ filename +:+ "_" +:+ show t)))).
  - apply touches_no_write. intros w. by rewrite add_cards_unchanged.
  - intros w b w' Hb. by eapply add_cards_refs.
  - intros batch Hbatch.
    apply touches_bind; [|intros _; apply touches_no_write, no_write_log].
    eapply touches_batch_commit; [apply own_prefix|done].
Qed.

Lemma touches_record_failure env u e :
  touches_only (in_namespace (upload_userId u)) (record_failure env u e).
Proof.
  unfold record_failure.
  apply touches_bind; [apply touches_no_write, no_write_log|]. intros _.
  apply touches_try_catch; [|intros _; apply touches_no_write, no_write_log].
  apply touches_bind; [apply touches_no_write, no_write_deck_filename|].
  intros filename.
  apply touches_bind; [apply touches_no_write, no_write_now|]. intros t.
  apply touches_bind; [|intros _; apply touches_no_write, no_write_log].
  apply touches_doc_set, own_prefix.
Qed.

(** X11: an invocation changes no document outside the namespace of the
    user its path names: a deck or card document whose deck identifier
    does not begin with that user's identifier and an underscore is after
    the invocation what it was before, whatever the collaborators do. *)
Theorem other_namespaces_are_untouched env object w r :
  (forall user, declared_user object = Some user ->
                in_namespace user r = false) ->
  db (run env object w) !! r = db w !! r.
Proof.
  intros Hr. destruct (decide (object_bucket object = "")) as [Hb|Hb];
    [by rewrite run_without_bucket|].
  unfold run. rewrite handler_with_bucket by done. unfold process.
  destruct (only_logs_validate object w) as (l1 & Hw & _).
  destruct (validate object w) as [[u| |e] w1] eqn:Hv; simpl in Hw; subst w1;
    [|unfold mbind, M_bind; by rewrite Hv..].
  rewrite (bind_value _ _ _ _ _ Hv).
  destruct (validate_checked _ _ _ _ Hv)
    as (Hn & _ & _ & _ & _ & _ & _ & Hu & _).
  assert (in_namespace (upload_userId u) r = false) as Hns.
  { apply Hr. unfold declared_user. rewrite Hn. exact Hu. }
  assert (touches_only (in_namespace (upload_userId u))
            (try_catch
               (aiServiceResponse ← request_flashcards env u;
                persist env u aiServiceResponse)
               (record_failure env u))) as Hm.
  { apply touches_try_catch.
    - apply touches_bind; [apply touches_no_write, no_write_request|].
      intros a. apply touches_persist.
    - intros e. apply touches_record_failure. }
  by rewrite (Hm _ r Hns).
Qed.

Lemma other_namespaces_are_untouched_witness :
  db (run (answering two_cards) notes_upload empty_world)
    !! CardRef "u2_notes_1700000000000" "c1" = None.
Proof.
  rewrite (other_namespaces_are_untouched (answering two_cards) notes_upload
             empty_world (CardRef "u2_notes_1700000000000" "c1")).
  - reflexivity.
  - intros user [= <-]. reflexivity.
Defined.


(** *** A download that fails *)






(** *** What validation accepts *)

Lemma passing_upload_validates object w p ct kind :
  object_name object = Some p ->
  path_admitted p = true ->
  object_contentType object = Some ct -> ct <> "" ->
  declared_kind object = Some kind ->
  exceeds (object_size object)
    (if String.eqb kind "documents" then maxDocumentSize else maxAudioSize)
  = false ->
  type_and_extension_ok kind ct p = true ->
  exists u msg,
    validate object w = (Value u, add_effects w [Log Info msg])
    /\ filePath u = p /\ contentType u = ct /\ fileType u = kind
    /\ declared_user object = Some (upload_userId u)
    /\ bucket u = object_bucket object.
Proof.
  unfold declared_kind, declared_user.
  destruct object as [name type size b]; simpl.
  intros -> Hp -> Hct Hk Hsize Hok. simpl in Hk. unfold path_admitted in Hp.
  assert (Hne : String.eqb p "" = false).
  { apply String.eqb_neq. by intros ->. }
  apply String.eqb_neq in Hct.
  unfold validate, type_and_extension_ok in *. simpl.
  destruct (split "/" p) as [|a [|k [|us [|f rest]]]]; simpl in *; try done.
  simplify_eq.
  apply andb_true_iff in Hp as [Hp Hu]. apply andb_true_iff in Hp as [Ha Hp].
  apply String.eqb_eq in Ha as ->. rewrite bool_decide_eq_true_2 by done.
  simpl. rewrite Hu, Hne, Hct. simpl.
  apply orb_true_iff in Hp as [Hk|Hk]; apply String.eqb_eq in Hk as ->;
    simpl in *; apply andb_true_iff in Hok as [Ht He];
    rewrite Hsize, Ht, He; simpl; msteps; by eexists _, _.
Qed.

(** X13: validation accepts every upload that passes the checks: an
    object with an admitted path, a non-empty content type that, with the
    extension, is allowed for its kind, and a declared size that does not
    exceed the ceiling of the kind is handed on, after one log entry, with
    its path, content type and kind and with the user of its path. *)
Theorem upload_passing_every_check_is_accepted object w p ct kind :
  object_name object = Some p ->
  path_admitted p = true ->
  object_contentType object = Some ct -> ct <> "" ->
  declared_kind object = Some kind ->
  exceeds (object_size object)
    (if String.eqb kind "documents" then maxDocumentSize else maxAudioSize)
  = false ->
  type_and_extension_ok kind ct p = true ->
  exists u msg,
    validate object w = (Value u, add_effects w [Log Info msg])
    /\ filePath u = p /\ contentType u = ct /\ fileType u = kind
    /\ declared_user object = Some (upload_userId u)
    /\ bucket u = object_bucket object.
Proof. apply passing_upload_validates. Qed.

Lemma upload_passing_every_check_is_accepted_witness :
  exists u msg,
    validate lecture_upload empty_world
    = (Value u, add_effects empty_world [Log Info msg])
    /\ filePath u = "uploads/audio/u1/lecture.mp3"
    /\ contentType u = "audio/mpeg" /\ fileType u = "audio"
    /\ declared_user lecture_upload = Some (upload_userId u)
    /\ bucket u = object_bucket lecture_upload.
Proof.
  apply (upload_passing_every_check_is_accepted lecture_upload empty_world
           "uploads/audio/u1/lecture.mp3" "audio/mpeg" "audio");
    try reflexivity. discriminate.
Defined.


(** *** An identifier that names no card document *)





End HandlerFacts.

(** ** The deck page: selection and export *)
Module PageFacts.
Import DeckPage ExportSpec Selection.
#[local] Set Warnings "-clear-no-such-hyp".

Lemma filter_selected cards (s : gset string) :
  (forall c, c ∈ cards -> id c ∈ s) -> selectedCardData cards s = cards.
Proof.
  intros Hs. unfold selectedCardData. apply forallb_filter_id.
  apply forallb_forall. intros c Hc. apply bool_decide_eq_true.
  by apply Hs, list_elem_of_In.
Qed.

Lemma filter_unselected cards (s : gset string) :
  (forall c, c ∈ cards -> id c ∉ s) -> selectedCardData cards s = [].
Proof.
  unfold selectedCardData. induction cards as [|c cards IH]; [done|].
  intros Hs. simpl. rewrite bool_decide_eq_false_2.
  - apply IH. intros c' Hc'. apply Hs. by right.
  - apply Hs. by left.
Qed.

(** X14: toggling a card twice restores the selection; one toggle changes
    whether that card is selected and the selection of no other card. *)
Theorem toggling_twice_restores_the_selection (s : gset string) c :
  handleCardToggle (handleCardToggle s c) c = s
  /\ (c ∈ handleCardToggle s c <-> c ∉ s)
  /\ forall c', c' <> c -> (c' ∈ handleCardToggle s c <-> c' ∈ s).
Proof.
  unfold handleCardToggle. split; [|split].
  - destruct (decide (c ∈ s)) as [Hc|Hc].
    + rewrite (bool_decide_eq_true_2 (c ∈ s)) by done.
      rewrite bool_decide_eq_false_2 by set_solver.
      apply set_eq. intros x. destruct (decide (x = c)); set_solver.
    + rewrite (bool_decide_eq_false_2 (c ∈ s)) by done.
      rewrite bool_decide_eq_true_2 by set_solver. set_solver.
  - case_bool_decide; set_solver.
  - intros c' Hc'. case_bool_decide; set_solver.
Qed.

(** X15: the selection the page makes when the cards are loaded selects
    every card: an export made without touching the selection is given
    all the cards of the deck, in their order. *)
Theorem loaded_selection_exports_every_card cards :
  selectedCardData cards (loaded_selection cards) = cards.
Proof.
  apply filter_selected. intros c Hc. unfold loaded_selection.
  apply elem_of_list_to_set, list_elem_of_fmap. by exists c.
Qed.

(** X16: when the cards have pairwise distinct identifiers and the
    selection lies within them, the select-all button clears the
    selection if every card is selected and selects every card
    otherwise. *)
Theorem select_all_selects_or_clears cards (s : gset string) :
  NoDup (id <$> cards) -> s ⊆ loaded_selection cards ->
  handleSelectAll cards s
  = if bool_decide (s = loaded_selection cards)
    then ∅ else loaded_selection cards.
Proof.
  intros Hnd Hs. unfold handleSelectAll.
  assert (size (loaded_selection cards) = length cards) as Hall.
  { unfold loaded_selection. rewrite size_list_to_set by done.
    apply length_fmap. }
  case_bool_decide as Heq.
  - subst s. by rewrite Hall, Nat.eqb_refl.
  - destruct (size s =? length cards)%nat eqn:Hsz; [|done].
    apply Nat.eqb_eq in Hsz. exfalso. apply Heq.
    apply leibniz_equiv, set_subseteq_size_equiv; [done|]. lia.
Qed.

Lemma select_all_selects_or_clears_witness :
  handleSelectAll three_cards {[ "c1" ]}
  = if bool_decide ({[ "c1" ]} = loaded_selection three_cards)
    then ∅ else loaded_selection three_cards.
Proof.
  apply select_all_selects_or_clears.
  - by apply (bool_decide_unpack _); vm_compute.
  - by apply (bool_decide_unpack _); vm_compute.
Defined.

(** X17: clicks on the cards shown and on the select-all button keep the
    selection within the identifiers of the loaded cards. *)
Theorem selection_stays_within_the_cards cards clicks :
  Forall (shown cards) clicks ->
  foldl (click cards) (loaded_selection cards) clicks
  ⊆ loaded_selection cards.
Proof.
  assert (forall s, s ⊆ loaded_selection cards ->
            Forall (shown cards) clicks ->
            foldl (click cards) s clicks ⊆ loaded_selection cards) as H.
  { induction clicks as [|c clicks IH]; intros s Hs Hc; [done|].
    apply Forall_cons in Hc as [Hc Hcs]. simpl. apply IH; [|done].
    destruct c as [cardId|]; simpl in *.
    - unfold handleCardToggle. case_bool_decide; [set_solver|].
      apply union_subseteq. split; [done|].
      apply singleton_subseteq_l. by apply elem_of_list_to_set.
    - unfold handleSelectAll. destruct (_ =? _)%nat; set_solver. }
  by apply H.
Qed.

Lemma selection_stays_within_the_cards_witness :
  foldl (click three_cards) (loaded_selection three_cards)
    [Toggle "c2"; SelectAll; Toggle "c3"]
  ⊆ loaded_selection three_cards.
Proof.
  apply selection_stays_within_the_cards.
  repeat constructor; simpl; set_solver.
Defined.

Section AnyFormat.
Variable exportToAnki : list Flashcard -> string -> bool.
Variable JSON_stringify
  : option string -> nat -> string -> list Flashcard -> string.
Variable toISOString_now : string.

(** X18: an export with no card of the deck selected only shows the
    alert that asks to select a card, whatever the format: the exporting
    flag is not touched and nothing is handed over. *)
Theorem export_of_no_card_only_alerts deck_title cards s exportFormat :
  (forall c, c ∈ cards -> id c ∉ s) ->
  handleExport exportToAnki JSON_stringify toISOString_now
    deck_title cards s exportFormat
  = [Alert "Please select at least one card to export"].
Proof.
  intros Hs. unfold handleExport. by rewrite filter_unselected.
Qed.

(** X19: an export of at least one card sets the exporting flag first
    and clears it last, does not set it in between, and hands over at most
    once, a file or the cards to the Anki export, whatever the format and
    whether or not the Anki export succeeds. *)
Theorem export_sets_and_clears_the_flag deck_title cards s exportFormat :
  selectedCardData cards s <> [] ->
  exists between,
    handleExport exportToAnki JSON_stringify toISOString_now
      deck_title cards s exportFormat
    = SetExporting true :: between ++ [SetExporting false]
    /\ (SetExporting true ∉ between)
    /\ (length (List.filter is_delivery between) <= 1)%nat.
Proof.
  intros Hsel. unfold handleExport. cbv zeta.
  destruct (selectedCardData cards s) as [|c sel]; [done|].
  change (length (c :: sel) =? 0)%nat with false. cbv iota.
  generalize (c :: sel). intros l.
  destruct (String.eqb exportFormat "anki");
    [destruct (exportToAnki _ _)|
     destruct (String.eqb exportFormat "csv");
     [|destruct (String.eqb exportFormat "quizlet-csv");
       [|destruct (String.eqb exportFormat "quizlet-txt");
         [|destruct (String.eqb exportFormat "json");
           [|destruct (String.eqb exportFormat "txt")]]]]];
    first [ eexists [_]; split; [reflexivity|]
          | eexists [_; _]; split; [reflexivity|]
          | eexists [_; _; _]; split; [reflexivity|] ];
    (split; [rewrite ?not_elem_of_cons; repeat split; try discriminate;
             apply not_elem_of_nil | simpl; lia]).
Qed.
End AnyFormat.

Lemma export_of_no_card_only_alerts_witness :
  handleExport anki_resolves json_unused "" (Some "Biology") three_cards
    ∅ "quizlet-txt"
  = [Alert "Please select at least one card to export"].
Proof.
  apply export_of_no_card_only_alerts. intros c _. set_solver.
Defined.

Lemma export_sets_and_clears_the_flag_witness :
  exists between,
    handleExport anki_resolves json_unused "" (Some "Biology") three_cards
      {[ "c2" ]} "anki"
    = SetExporting true :: between ++ [SetExporting false]
    /\ (SetExporting true ∉ between)
    /\ (length (List.filter is_delivery between) <= 1)%nat.
Proof.
  apply export_sets_and_clears_the_flag. by vm_compute.
Defined.

(** X20: doubling the double quotes loses nothing: two texts with the
    same escaped form are the same text. *)
Theorem escaping_quotes_is_lossless a b :
  replace_quotes a = replace_quotes b -> a = b.
Proof.
  revert b. induction a as [|c a IH]; intros [|d b]; simpl.
  - done.
  - by destruct (Ascii.eqb d dquote).
  - by destruct (Ascii.eqb c dquote).
  - destruct (Ascii.eqb c dquote) eqn:Hc, (Ascii.eqb d dquote) eqn:Hd.
    + apply Ascii.eqb_eq in Hc as ->. apply Ascii.eqb_eq in Hd as ->.
      intros [= H]. by rewrite (IH b H).
    + intros [= <- H]. by rewrite Ascii.eqb_refl in Hd.
    + intros [= -> H]. by rewrite Ascii.eqb_refl in Hc.
    + intros [= -> H]. by rewrite (IH b H).
Qed.

Lemma escaping_quotes_is_lossless_witness :
  "say " +:+ q +:+ "hi" +:+ q = "say " +:+ q +:+ "hi" +:+ q.
Proof.
  apply escaping_quotes_is_lossless. reflexivity.
Defined.

End PageFacts.

(** ** The Anki export *)
Module AnkiFacts.
Import DeckPage ExportSpec Selection AnkiExport.

Section Service.
Variable fetch : string -> list Flashcard -> string -> Functions.Result Response.
Variable atob : string -> Functions.Result string.

(** X21: every call of the Anki export makes exactly one request; when
    its promise is fulfilled it has saved exactly one file, and when it is
    rejected it has saved none and its last act is to log the error it
    rejects with. *)
Theorem anki_export_saves_exactly_when_fulfilled cards deckName :
  let trace := (exportToAnki fetch atob cards deckName).1 in
  List.filter is_fetch trace
  = [Fetch (AI_SERVICE_URL +:+ "/export-anki") cards deckName]
  /\ match (exportToAnki fetch atob cards deckName).2 with
     | Functions.Resolved _ => length (List.filter is_save trace) = 1%nat
     | Functions.Rejected e =>
         List.filter is_save trace = []
         /\ last trace = Some (ConsoleError "Error exporting to Anki:" e)
     end.
Proof.
  unfold exportToAnki, attempt.
  destruct (fetch _ cards deckName) as [response|e]; [|done].
  destruct (ok response); [|done]. simpl.
  destruct (json response) as [result|e]; [|done].
  destruct (success result); [|done]. simpl.
  by destruct (atob (data result)) as [bytes|e].
Qed.

(** X22: the deck page reports a successful export to Anki only when the
    format is anki, the service answered the request for the selected
    cards with an ok status and a body flagged as success, the data of the
    body were decoded, and the file named by the body was saved. *)
Theorem anki_success_is_announced_only_after_saving
    JSON_stringify toISOString_now deck_title cards s exportFormat :
  existsb announces_success
    (handleExport (fulfilled fetch atob) JSON_stringify toISOString_now
       deck_title cards s exportFormat) = true ->
  let sel := selectedCardData cards s in
  let name := or_default deck_title "FlashGen Export" in
  exportFormat = "anki"
  /\ exists response result bytes,
       fetch (AI_SERVICE_URL +:+ "/export-anki") sel name
       = Functions.Resolved response
       /\ ok response = true
       /\ json response = Functions.Resolved result
       /\ success result = true
       /\ atob (data result) = Functions.Resolved bytes
       /\ List.filter is_save (exportToAnki fetch atob sel name).1
          = [SaveFile (filename result) bytes].
Proof.
  unfold handleExport. cbv zeta.
  destruct (length (selectedCardData cards s) =? 0)%nat; [done|].
  destruct (String.eqb exportFormat "anki") eqn:Hfmt.
  - apply String.eqb_eq in Hfmt as ->.
    destruct (fulfilled fetch atob _ _) eqn:Hf; [|done].
    intros _. split; [done|]. revert Hf.
    unfold fulfilled, exportToAnki, attempt.
    destruct (fetch _ _ _) as [response|e]; [|done].
    destruct (ok response) eqn:Hok; [|done]. simpl.
    destruct (json response) as [result|e] eqn:Hjson; [|done].
    destruct (success result) eqn:Hs; [|done]. simpl.
    destruct (atob (data result)) as [bytes|e] eqn:Hb; [|done].
    intros _. by exists response, result, bytes.
  - destruct (String.eqb exportFormat "csv"); [done|].
    destruct (String.eqb exportFormat "quizlet-csv"); [done|].
    destruct (String.eqb exportFormat "quizlet-txt"); [done|].
    destruct (String.eqb exportFormat "json"); [done|].
    by destruct (String.eqb exportFormat "txt").
Qed.
End Service.

Lemma anki_success_is_announced_only_after_saving_witness :
  List.filter is_save
    (exportToAnki packaging decoding
       (selectedCardData three_cards {[ "c2" ]}) "Biology").1
  = [SaveFile "Biology.apkg" "UEsDBA=="].
Proof.
  destruct (anki_success_is_announced_only_after_saving packaging decoding
              json_unused "" (Some "Biology") three_cards {[ "c2" ]} "anki")
    as (_ & response & result & bytes & Hf & _ & Hj & _ & Hb & Hs).
  - by vm_compute.
  - injection Hf as <-. injection Hj as <-. injection Hb as <-. exact Hs.
Defined.

End AnkiFacts.

(** ** The upload components and the function they trigger *)
Module UploadsFacts.
Import Functions UploadSpec ExportSpec HandlerSpec Uploads.
Import JsFacts UploadFacts ExportFacts HandlerFacts.

Lemma split_nonempty sep s : split sep s <> [].
Proof.
  destruct s as [|c s]; [done|]. simpl.
  destruct (Ascii.eqb c sep); [done|]. by destruct (split sep s).
Qed.

#[local] Arguments split : simpl never.
#[local] Arguments show : simpl never.
#[local] Arguments fileExtension : simpl never.

(** The segments of a path the components build. *)
Lemma component_path_split kind user name :
  occurs "/" kind = false -> occurs "/" user = false ->
  split "/" ("uploads" +:+ String "/" (kind +:+ String "/"
               (user +:+ String "/" name)))
  = "uploads" :: kind :: user :: split "/" name.
Proof.
  intros Hk Hu. by rewrite !split_line.
Qed.

Lemma component_path_admitted bucket kind user name f :
  kind = "documents" \/ kind = "audio" ->
  user <> "" -> occurs "/" user = false ->
  let path := "uploads" +:+ String "/" (kind +:+ String "/"
                (user +:+ String "/" name)) in
  path_admitted path = true
  /\ declared_kind (stored bucket path f) = Some kind
  /\ declared_user (stored bucket path f) = Some user.
Proof.
  intros Hk Hne Hu path.
  assert (occurs "/" kind = false) as Hok by (by destruct Hk as [-> | ->]).
  assert (split "/" path = "uploads" :: kind :: user :: split "/" name)
    as Hsplit by (by apply component_path_split).
  clearbody path.
  unfold path_admitted, declared_kind, declared_user, stored. simpl.
  rewrite Hsplit.
  destruct (split "/" name) as [|h t] eqn:Hs; [by apply split_nonempty in Hs|].
  apply String.eqb_neq in Hne. rewrite Hne.
  by destruct Hk as [-> | ->].
Qed.

(** X23: the document component starts an upload only for a chosen file
    and a signed-in user, and files it under the user's own identifier:
    when that identifier is not empty and holds no slash, the path is one
    the function admits, of kind documents, and names that user. *)
Theorem document_upload_is_filed_under_its_user file user path f bucket :
  UploadBytes path f ∈ document_handleUpload file user ->
  file = Some f
  /\ exists u, user = Some u
       /\ path = "uploads/documents/" +:+ uid u +:+ "/" +:+ file_name f
       /\ (uid u <> "" -> occurs "/" (uid u) = false ->
           path_admitted path = true
           /\ declared_kind (stored bucket path f) = Some "documents"
           /\ declared_user (stored bucket path f) = Some (uid u)).
Proof.
  unfold document_handleUpload.
  destruct file as [f'|]; [|by intros [=]%list_elem_of_singleton].
  destruct user as [u|]; [|by intros [=]%list_elem_of_singleton].
  rewrite !elem_of_cons. intros [[=]|[[=]|[[= -> <-]|Hnil]]];
    [|by apply elem_of_nil in Hnil].
  split; [done|]. exists u. split; [done|]. split; [done|].
  intros Hne Hu.
  by apply (component_path_admitted bucket "documents" (uid u)
              (file_name f) f); [left|..].
Qed.

Lemma document_upload_is_filed_under_its_user_witness :
  declared_user
    (stored "recall-ai.appspot.com" "uploads/documents/u1/notes.txt" slides)
  = Some "u1".
Proof.
  destruct (document_upload_is_filed_under_its_user (Some slides)
              (Some {| uid := "u1" |}) "uploads/documents/u1/notes.txt"
              slides "recall-ai.appspot.com")
    as (_ & u & Hu & _ & H).
  - simpl. do 2 right. left.
  - injection Hu as <-. apply H; [discriminate|reflexivity].
Defined.

Lemma audio_ok ct p :
  type_and_extension_ok "audio" ct p
  = type_allowed allowedAudioTypes ct
    && includes allowedAudioExtensions (fileExtension p).
Proof. reflexivity. Qed.

Section Audio.
Variable formatFileSize : Z -> string.

Lemma validation_error_not_empty f message :
  validateFile formatFileSize f = Some message -> message <> "".
Proof.
  unfold validateFile. destruct (negb _); [by intros [= <-]|].
  destruct (_ >? _); by intros [= <-].
Qed.

Lemma accepted_file_passes_checks f :
  validateFile formatFileSize f = None -> 0 <= file_size f ->
  type_allowed allowedAudioTypes (file_type f) = true
  /\ exceeds (Some (show (file_size f))) maxAudioSize = false.
Proof.
  unfold validateFile.
  destruct (includes allowedTypes (file_type f)) eqn:Ht; [|done]. simpl.
  destruct (file_size f >? maxSizeBytes) eqn:Hs; [done|]. intros _ Hpos.
  split.
  - unfold includes, allowedTypes in Ht. simpl in Ht.
    repeat (apply orb_true_iff in Ht as [Ht|Ht];
            [apply String.eqb_eq in Ht as ->; reflexivity|]).
    discriminate.
  - unfold exceeds. simpl. rewrite parseInt_show by done. simpl.
    rewrite andb_false_iff. right. apply Z.ltb_ge.
    unfold maxAudioSize, maxSizeBytes in *. lia.
Qed.

(** X24: a file the audio component accepts passes the content-type and
    the size check of the function, when the stored object declares the
    file's byte count in decimal. *)
Theorem audio_component_checks_cover_the_function f :
  validateFile formatFileSize f = None -> 0 <= file_size f ->
  type_allowed allowedAudioTypes (file_type f) = true
  /\ exceeds (Some (show (file_size f))) maxAudioSize = false.
Proof. apply accepted_file_passes_checks. Qed.

Lemma step_holds_valid st ev :
  holds_valid formatFileSize st ->
  holds_valid formatFileSize (step formatFileSize st ev).1.
Proof.
  intros Hst. destruct ev as [selectedFile| |user| |]; simpl.
  - unfold handleFileSelect.
    destruct (validateFile formatFileSize selectedFile) as [message|] eqn:Hv;
      simpl.
    + apply validation_error_not_empty, String.eqb_neq in Hv. by rewrite Hv.
    + by intros f [= <-].
  - by intros f.
  - unfold handleUpload.
    destruct (file st) as [f0|] eqn:Hf, user as [u|]; simpl;
      intros f Hf'; simpl in Hf'; apply Hst; congruence.
  - exact Hst.
  - by intros f.
Qed.

Lemma step_uploads st ev path f :
  holds_valid formatFileSize st ->
  UploadBytes path f ∈ (step formatFileSize st ev).2 ->
  validateFile formatFileSize f = None
  /\ exists u, path = "uploads/audio/" +:+ uid u +:+ "/" +:+ file_name f.
Proof.
  intros Hst. destruct ev as [selectedFile| |user| |]; simpl;
    try by intros ?%elem_of_nil.
  unfold handleUpload.
  destruct (file st) as [f'|] eqn:Hf, user as [u|]; simpl;
    try by intros [=]%list_elem_of_singleton.
  rewrite !elem_of_cons. intros [[=]|[[=]|[[= -> <-]|Hnil]]];
    [|by apply elem_of_nil in Hnil].
  split; [by apply Hst|]. by exists u.
Qed.

(** X25: whatever happens to the audio component, every upload it starts
    is of a file that passed its validation, the last one selected that
    did, and goes to the audio folder of a signed-in user under the name
    of the file. *)
Theorem audio_component_uploads_only_validated_files evs path f :
  UploadBytes path f ∈ (run_events formatFileSize initial evs).2 ->
  validateFile formatFileSize f = None
  /\ exists u, path = "uploads/audio/" +:+ uid u +:+ "/" +:+ file_name f.
Proof.
  assert (forall st, holds_valid formatFileSize st ->
            UploadBytes path f ∈ (run_events formatFileSize st evs).2 ->
            validateFile formatFileSize f = None
            /\ exists u, path = "uploads/audio/" +:+ uid u +:+ "/"
                                +:+ file_name f) as H.
  { induction evs as [|ev evs IH]; intros st Hst; simpl.
    - by intros ?%elem_of_nil.
    - pose proof (step_holds_valid st ev Hst) as Hst1.
      pose proof (step_uploads st ev path f Hst) as Hup.
      destruct (step formatFileSize st ev) as [st1 done1].
      specialize (IH st1 Hst1).
      destruct (run_events formatFileSize st1 evs) as [st2 done2].
      simpl in *. intros [Hin|Hin]%elem_of_app; auto. }
  apply H. by intros f'.
Qed.

(** X26: an upload the audio component starts for a user whose identifier
    is not empty and holds no slash, of a file whose path ends in one of
    the audio extensions, passes the validation of the function, which
    hands it on as an audio upload of that user. *)
Theorem accepted_audio_upload_is_processed_for_its_user f u bucket w :
  validateFile formatFileSize f = None -> 0 <= file_size f ->
  uid u <> "" -> occurs "/" (uid u) = false ->
  let path := "uploads/audio/" +:+ uid u +:+ "/" +:+ file_name f in
  includes allowedAudioExtensions (fileExtension path) = true ->
  exists up msg,
    validate (stored bucket path f) w = (Value up, add_effects w [Log Info msg])
    /\ upload_userId up = uid u /\ fileType up = "audio"
    /\ filePath up = path /\ contentType up = file_type f.
Proof.
  intros Hv Hpos Hne Hu path Hext.
  destruct (accepted_file_passes_checks f Hv Hpos) as [Ht Hs].
  destruct (component_path_admitted bucket "audio" (uid u) (file_name f) f)
    as (Hp & Hk & Hd); [by right|done..|].
  destruct (passing_upload_validates (stored bucket path f) w path
              (file_type f) "audio")
    as (up & msg & Hval & Hpath & Hct & Hkind & Huser & _);
    try done.
  - intros Hempty. rewrite Hempty in Ht. discriminate.
  - by rewrite audio_ok, Ht, Hext.
  - exists up, msg. repeat split; try done.
    change (declared_user (stored bucket path f) = Some (uid u)) in Hd.
    rewrite Hd in Huser. by injection Huser.
Qed.

(** X27: the audio component does not look at the name of a file: an
    upload it starts of a file it accepts, whose path does not end in one
    of the audio extensions, is dropped by the function with log entries
    only. *)
Theorem accepted_audio_with_other_extension_is_dropped env f u bucket w :
  validateFile formatFileSize f = None ->
  let path := "uploads/audio/" +:+ uid u +:+ "/" +:+ file_name f in
  includes allowedAudioExtensions (fileExtension path) = false ->
  aborted env (stored bucket path f) w.
Proof.
  intros _ path Hext. apply bad_type_or_extension_aborted.
  intros p kind ct [= <-] Hk _ _.
  assert (kind = "audio") as ->.
  { assert (split "/" path
            = "uploads" :: "audio"
              :: split "/" (uid u +:+ "/" +:+ file_name f)) as Hsplit.
    { change (split "/" ("uploads" +:+ String "/" ("audio" +:+ String "/"
                (uid u +:+ "/" +:+ file_name f)))
              = "uploads" :: "audio"
                :: split "/" (uid u +:+ "/" +:+ file_name f)).
      by rewrite !split_line. }
    clearbody path. unfold declared_kind, stored in Hk. simpl in Hk.
    rewrite Hsplit in Hk. by injection Hk. }
  rewrite audio_ok, Hext. apply andb_false_r.
Qed.
End Audio.

Lemma audio_component_checks_cover_the_function_witness :
  type_allowed allowedAudioTypes (file_type lecture) = true
  /\ exceeds (Some (show (file_size lecture))) maxAudioSize = false.
Proof.
  apply (audio_component_checks_cover_the_function megabytes lecture);
    [reflexivity|by vm_compute].
Defined.

Lemma audio_component_uploads_only_validated_files_witness :
  validateFile megabytes lecture = None
  /\ exists u, "uploads/audio/u1/lecture.mp3"
               = "uploads/audio/" +:+ uid u +:+ "/" +:+ file_name lecture.
Proof.
  apply (audio_component_uploads_only_validated_files megabytes
           [Select slides; Select lecture; PressUpload None;
            PressUpload (Some {| uid := "u1" |}); UploadCompleted]).
  simpl. do 3 right. left.
Defined.

Lemma accepted_audio_upload_is_processed_for_its_user_witness :
  exists up msg,
    validate
      (stored "recall-ai.appspot.com" "uploads/audio/u1/lecture.mp3" lecture)
      empty_world
    = (Value up, add_effects empty_world [Log Info msg])
    /\ upload_userId up = "u1" /\ fileType up = "audio"
    /\ filePath up = "uploads/audio/u1/lecture.mp3"
    /\ contentType up = "audio/mpeg".
Proof.
  apply (accepted_audio_upload_is_processed_for_its_user megabytes lecture
           {| uid := "u1" |} "recall-ai.appspot.com" empty_world);
    first [reflexivity | discriminate | by vm_compute].
Defined.

Lemma accepted_audio_with_other_extension_is_dropped_witness :
  aborted (answering two_cards)
    (stored "recall-ai.appspot.com" "uploads/audio/u1/lecture.mpeg"
       {| file_name := "lecture.mpeg"; file_type := "audio/mpeg";
          file_size := 1048576 |})
    empty_world.
Proof.
  apply (accepted_audio_with_other_extension_is_dropped megabytes
           (answering two_cards)
           {| file_name := "lecture.mpeg"; file_type := "audio/mpeg";
              file_size := 1048576 |}
           {| uid := "u1" |} "recall-ai.appspot.com" empty_world);
    reflexivity.
Defined.

End UploadsFacts.
